(** * Core Banking API: the transfer ledger

    A shallow embedding of [main.py], [schemas.py] and [database.py]:
    the request schemas, the three tables and the handlers
    [create_user], [create_account], [get_account] and [create_transfer],
    followed by the properties of the ledger that the specification states;
    then the handler of a transfer cut at its queries and its commit, for
    requests that are served concurrently, the handlers that read
    ([get_current_user_info], [list_accounts], [list_transfers]) and what
    the service keeps true of its tables.

    Conventions of the embedding
    - A table with an integer primary key is a finite map from the key to
      the row ([gmap Z _]); [db.query(T).filter(T.id == k).first()] is the
      lookup [!! k].
    - A handler is a function from the database (and its arguments) to the
      database after the request together with the response; a raised
      [HTTPException] is the response [Err _] and leaves the database as the
      last commit left it.
    - What a commit writes goes through the types of the columns: the engine
      of [DATABASE_URL] is PostgreSQL, the amounts are [Numeric(15, 2)] and
      the texts [String] or [String(3)]; a commit that the database refuses
      is the response 500 and writes nothing.
    - The header [Authorization] stands for what [int] makes of it, and
      strings for ASCII text.
    - [created_at] columns are not modelled. *)

From Stdlib Require Import ZArith QArith Qpower Lia Lqa Ascii String.
From stdpp Require Import base option gmap strings list fin_maps.

Local Open Scope Z_scope.

(** ** Decimal numbers

    Python's [decimal.Decimal], finite values only (the schemas refuse
    NaN and the infinities): a coefficient and an exponent, standing for
    [coef * 10 ^ exp].  Arithmetic is carried out exactly and then rounded to
    the context precision of 28 significant digits, ties to even, as the
    default context does; comparisons are exact. *)

Module Decimal.

Record t : Type := mk { coef : Z; exp : Z }.

(** The number a decimal stands for. *)
Definition value (d : t) : Q := (inject_Z (coef d) * (10 # 1) ^ exp d)%Q.

(** Context precision ([getcontext().prec]). *)
Definition prec : Z := 28.

(** The coefficient of [d] once written with the exponent [e <= exp d]. *)
Definition scaled (e : Z) (d : t) : Z := coef d * 10 ^ (exp d - e).

Definition ltb (a b : t) : bool :=
  let e := Z.min (exp a) (exp b) in scaled e a <? scaled e b.

(** Number of decimal digits of [n] (1 for 0). *)
Fixpoint ndigits_from (fuel : nat) (k : Z) (n : Z) : Z :=
  match fuel with
  | O => k
  | S fuel' => if Z.abs n <? 10 ^ k then k else ndigits_from fuel' (k + 1) n
  end.

Definition ndigits (n : Z) : Z :=
  ndigits_from (Z.to_nat (Z.log2_up (Z.abs n))) 1 n.

(** [n / p] rounded to the nearest integer, ties to the even one
    (ROUND_HALF_EVEN), on the magnitude of [n]. *)
Definition round_half_even (n p : Z) : Z :=
  let q := Z.abs n / p in
  let r := Z.abs n mod p in
  let q' := if 2 * r <? p then q
            else if p <? 2 * r then q + 1
            else if Z.even q then q else q + 1 in
  Z.sgn n * q'.

(** [Decimal._fix]: round to [prec] significant digits. *)
Definition fix_ (d : t) : t :=
  if Z.abs (coef d) <? 10 ^ prec then d
  else
    let k := ndigits (coef d) - prec in
    let c := round_half_even (coef d) (10 ^ k) in
    if Z.abs c <? 10 ^ prec then mk c (exp d + k)
    else mk (Z.quot c 10) (exp d + k + 1).

Definition neg (d : t) : t := mk (- coef d) (exp d).

(** [Decimal.__add__]. *)
Definition add (a b : t) : t :=
  let e := Z.min (exp a) (exp b) in
  fix_ (mk (scaled e a + scaled e b) e).

(** [Decimal.__sub__]: [a + (-b)]. *)
Definition sub (a b : t) : t := add a (neg b).

End Decimal.

(** ** The [Numeric(15, 2)] columns

    [accounts.balance] and [transfers.amount] are declared
    [Numeric(15, 2)], and the engine is PostgreSQL ([DATABASE_URL]): a value
    written to such a column is rounded to two fractional digits, ties away
    from zero, and refused (the statement fails) when the rounded value does
    not fit 15 digits.  What the column holds is what the next request
    reads. *)

Module Numeric.

Definition precision : Z := 15.
Definition scale : Z := 2.

(** [n / p] rounded to the nearest integer, ties away from zero. *)
Definition round_half_up (n p : Z) : Z :=
  let q := Z.abs n / p in
  let r := Z.abs n mod p in
  Z.sgn n * (if 2 * r <? p then q else q + 1).

(** The coefficient of [d] at exponent [- scale]. *)
Definition rescale (d : Decimal.t) : Z :=
  if - scale <=? Decimal.exp d then Decimal.scaled (- scale) d
  else round_half_up (Decimal.coef d) (10 ^ (- scale - Decimal.exp d)).

(** The value the column holds after [d] is written to it; [None] when
    the database refuses it (numeric field overflow). *)
Definition store (d : Decimal.t) : option Decimal.t :=
  let c := rescale d in
  if Z.abs c <? 10 ^ precision then Some (Decimal.mk c (- scale)) else None.

(** The values a column can hold. *)
Definition stored (d : Decimal.t) : Prop :=
  Decimal.exp d = - scale ∧ Z.abs (Decimal.coef d) < 10 ^ precision.

End Numeric.

(** ** The text columns

    [users.name] and [accounts.account_type] are declared [String] and
    [accounts.currency] is declared [String(3)].  PostgreSQL holds no text
    with a NUL character, and refuses a text that is longer than its column:
    either way the commit fails.  (An excess made of blanks alone is clipped
    by PostgreSQL rather than refused; the schema of the request admits
    currencies of exactly three characters, so no request writes one, and
    the excess is refused here whatever it is made of.) *)

Module Text.

Fixpoint has_nul (s : string) : bool :=
  match s with
  | EmptyString => false
  | String c s' => Ascii.eqb c Ascii.zero || has_nul s'
  end.

(** Whether a column takes the text: [length] is the length the column is
    declared with, if any. *)
Definition fits (length : option nat) (s : string) : bool :=
  negb (has_nul s)
  && match length with
     | None => true
     | Some n => (String.length s <=? n)%nat
     end.

End Text.

(** ** Strings

    [str.upper] on ASCII text: the letters [a]-[z] go to [A]-[Z], every
    other character stays. *)

Definition upper_char (c : ascii) : ascii :=
  let n := N_of_ascii c in
  if ((97 <=? n) && (n <=? 122))%N then ascii_of_N (n - 32) else c.

Fixpoint upper (s : string) : string :=
  match s with
  | EmptyString => EmptyString
  | String c s' => String (upper_char c) (upper s')
  end.

(** ** Tables ([database.py]) *)

Module User.
Record t : Type := mk { id : Z; name : string }.
End User.

Module Account.
Record t : Type := mk {
  id : Z;
  user_id : Z;
  account_type : string;
  currency : string;
  balance : Decimal.t
}.

(** Assignment to the [balance] attribute. *)
Definition with_balance (a : t) (b : Decimal.t) : t :=
  mk (id a) (user_id a) (account_type a) (currency a) b.

End Account.

Module Transfer.
Record t : Type := mk {
  id : Z;
  from_account_id : Z;
  to_account_id : Z;
  amount : Decimal.t
}.
End Transfer.

Record DB : Type := mkDB {
  users : gmap Z User.t;
  accounts : gmap Z Account.t;
  transfers : gmap Z Transfer.t
}.

Definition empty_db : DB := mkDB ∅ ∅ ∅.

(** The key an [Integer] primary key column gives to the next row: above
    every key of the table, starting at 1. *)
Definition next_id {A} (table : gmap Z A) : Z :=
  map_fold (λ k _ acc, Z.max (k + 1) acc) 1 table.

(** ** Request bodies ([schemas.py]) *)

Module UserCreate.
Record t : Type := mk { name : string }.
(** [Field(..., min_length=1, max_length=100)] *)
Definition valid (d : t) : bool :=
  let n := String.length (name d) in ((1 <=? n) && (n <=? 100))%nat.
End UserCreate.

Module AccountCreate.
Record t : Type := mk {
  account_type : string;
  currency : string;
  balance : Decimal.t
}.
(** [account_type]: [min_length=1, max_length=50]; [currency]:
    [min_length=3, max_length=3]; [balance]: [ge=0]. *)
Definition valid (d : t) : bool :=
  let n := String.length (account_type d) in
  ((1 <=? n) && (n <=? 50))%nat
  && (String.length (currency d) =? 3)%nat
  && (0 <=? Decimal.coef (balance d)).
End AccountCreate.

Module TransferCreate.
Record t : Type := mk {
  from_account_id : Z;
  to_account_id : Z;
  amount : Decimal.t
}.
(** [amount]: [gt=0]. *)
Definition valid (d : t) : bool := 0 <? Decimal.coef (amount d).
End TransferCreate.

(** ** Responses *)

(** The failures of a request, with the status code and the detail of the
    exception that the source raises. *)
Inductive Error : Type :=
| InvalidAuthorizationHeader   (* 401 "Invalid authorization header" *)
| UserNotFound                 (* 401 "User not found" *)
| RequestValidationError       (* 422, the body does not satisfy its schema *)
| AccountNotFound              (* 404 "Account not found" *)
| SourceAccountNotFound        (* 404 "Source account not found" *)
| NotOwner                     (* 403 "You don't own the source account" *)
| DestinationAccountNotFound   (* 404 "Destination account not found" *)
| CurrencyMismatch (from_currency to_currency : string)
                               (* 400 "Currency mismatch: {} != {}" *)
| InsufficientBalance (available : Decimal.t)
                               (* 400 "Insufficient balance. Available: {}" *)
| SameAccount                  (* 400 "Cannot transfer to the same account" *)
| DataError.                   (* 500, the commit is refused by the database *)

Definition status_code (e : Error) : Z :=
  match e with
  | InvalidAuthorizationHeader | UserNotFound => 401
  | RequestValidationError => 422
  | AccountNotFound | SourceAccountNotFound | DestinationAccountNotFound => 404
  | NotOwner => 403
  | CurrencyMismatch _ _ | InsufficientBalance _ | SameAccount => 400
  | DataError => 500
  end.

Inductive Result (A : Type) : Type :=
| Ok (a : A)
| Err (e : Error).
Arguments Ok {A} a.
Arguments Err {A} e.

(** ** Handlers ([main.py]) *)

(** [get_current_user].  The header is given by what [int(authorization)]
    makes of it: [Some n], or [None] when it raises [ValueError]. *)
Definition get_current_user (db : DB) (authorization : option Z) : Result User.t :=
  match authorization with
  | None => Err InvalidAuthorizationHeader
  | Some user_id =>
      match users db !! user_id with
      | None => Err UserNotFound
      | Some user => Ok user
      end
  end.

(** [create_user]: [db.commit()] inserts the row, unless the column
    [users.name] does not take the name. *)
Definition create_user (db : DB) (user_data : UserCreate.t) : DB * Result User.t :=
  if Text.fits None (UserCreate.name user_data) then
    let user := User.mk (next_id (users db)) (UserCreate.name user_data) in
    (mkDB (<[User.id user := user]> (users db)) (accounts db) (transfers db), Ok user)
  else (db, Err DataError).

(** [create_account]: [db.commit()] inserts the row, unless one of the
    columns [account_type], [currency] and [balance] does not take its
    value. *)
Definition create_account (db : DB) (current_user : User.t)
    (account_data : AccountCreate.t) : DB * Result Account.t :=
  if Text.fits None (AccountCreate.account_type account_data)
     && Text.fits (Some 3%nat) (upper (AccountCreate.currency account_data)) then
    match Numeric.store (AccountCreate.balance account_data) with
    | None => (db, Err DataError)
    | Some balance =>
        let account :=
          Account.mk (next_id (accounts db))
                     (User.id current_user)
                     (AccountCreate.account_type account_data)
                     (upper (AccountCreate.currency account_data))
                     balance in
        (mkDB (users db) (<[Account.id account := account]> (accounts db)) (transfers db),
         Ok account)
    end
  else (db, Err DataError).

(** [get_account]: the query filters on the key and on the owner. *)
Definition get_account (db : DB) (current_user : User.t) (account_id : Z)
  : Result Account.t :=
  match accounts db !! account_id with
  | Some account =>
      if bool_decide (Account.user_id account = User.id current_user)
      then Ok account
      else Err AccountNotFound
  | None => Err AccountNotFound
  end.

(** [obj.balance = f(obj.balance)] on the object of the session that has the
    key [id]: two names for one key denote one object. *)
Definition update_balance (id : Z) (f : Decimal.t → Decimal.t)
    (session : gmap Z Account.t) : gmap Z Account.t :=
  alter (λ a, Account.with_balance a (f (Account.balance a))) id session.

(** The [UPDATE] of the row [id] at flush time. *)
Definition flush_account (id : Z) (session : gmap Z Account.t)
  : option (gmap Z Account.t) :=
  a ← session !! id;
  b ← Numeric.store (Account.balance a);
  Some (<[id := Account.with_balance a b]> session).

(** [create_transfer] *)
Definition create_transfer (db : DB) (current_user : User.t)
    (transfer_data : TransferCreate.t) : DB * Result Transfer.t :=
  let from_id := TransferCreate.from_account_id transfer_data in
  let to_id := TransferCreate.to_account_id transfer_data in
  let amount := TransferCreate.amount transfer_data in
  (* from_account = db.query(Account).filter(...).first() *)
  match accounts db !! from_id with
  | None => (db, Err SourceAccountNotFound)
  | Some from_account =>
  (* if from_account.user_id != current_user.id *)
  if bool_decide (Account.user_id from_account ≠ User.id current_user)
  then (db, Err NotOwner) else
  (* to_account = db.query(Account).filter(...).first() *)
  match accounts db !! to_id with
  | None => (db, Err DestinationAccountNotFound)
  | Some to_account =>
  (* if from_account.currency != to_account.currency *)
  if bool_decide (Account.currency from_account ≠ Account.currency to_account)
  then (db, Err (CurrencyMismatch (Account.currency from_account)
                                  (Account.currency to_account))) else
  (* if from_account.balance < transfer_data.amount *)
  if Decimal.ltb (Account.balance from_account) amount
  then (db, Err (InsufficientBalance (Account.balance from_account))) else
  (* if transfer_data.from_account_id == transfer_data.to_account_id *)
  if bool_decide (from_id = to_id)
  then (db, Err SameAccount) else
  (* from_account.balance -= transfer_data.amount *)
  let session := update_balance from_id (λ b, Decimal.sub b amount) (accounts db) in
  (* to_account.balance += transfer_data.amount *)
  let session := update_balance to_id (λ b, Decimal.add b amount) session in
  (* db.add(transfer); db.commit(); db.refresh(transfer) *)
  let committed :=
    accs ← flush_account from_id session;
    accs ← flush_account to_id accs;
    amt ← Numeric.store amount;
    Some (accs, Transfer.mk (next_id (transfers db)) from_id to_id amt) in
  match committed with
  | None => (db, Err DataError)
  | Some (accs, transfer) =>
      (mkDB (users db) accs (<[Transfer.id transfer := transfer]> (transfers db)),
       Ok transfer)
  end
  end
  end.

(** [get_current_user_info] *)
Definition get_current_user_info (current_user : User.t) : User.t := current_user.

(** [query.all()]: the rows of a table.  The queries give no [ORDER BY], so
    the order of the rows is the database's own; what is proved of a listing
    is about the rows it holds, never about their order. *)
Definition all {A} (table : gmap Z A) : list A := (map_to_list table).*2.

(** [list_accounts] *)
Definition list_accounts (db : DB) (current_user : User.t) : list Account.t :=
  filter (λ a, Account.user_id a = User.id current_user) (all (accounts db)).

(** [user.accounts], the relationship of [User] to [Account]: the accounts
    whose [user_id] is the key of the user. *)
Definition User_accounts (db : DB) (user : User.t) : list Account.t :=
  filter (λ a, Account.user_id a = User.id user) (all (accounts db)).

(** [list_transfers] *)
Definition list_transfers (db : DB) (current_user : User.t) : list Transfer.t :=
  (* account_ids = [acc.id for acc in current_user.accounts] *)
  let account_ids := Account.id <$> User_accounts db current_user in
  filter (λ t, Transfer.from_account_id t ∈ account_ids
               ∨ Transfer.to_account_id t ∈ account_ids)
         (all (transfers db)).

(** ** Endpoints

    A request reaches its handler after the dependency [get_current_user]
    has produced the user and the body has been validated against its
    schema; a body that fails validation is answered with 422 and the
    handler does not run. *)

Definition post_users (db : DB) (body : UserCreate.t) : DB * Result User.t :=
  if UserCreate.valid body then create_user db body
  else (db, Err RequestValidationError).

Definition post_accounts (db : DB) (authorization : option Z)
    (body : AccountCreate.t) : DB * Result Account.t :=
  match get_current_user db authorization with
  | Err e => (db, Err e)
  | Ok current_user =>
      if AccountCreate.valid body then create_account db current_user body
      else (db, Err RequestValidationError)
  end.

Definition post_transfers (db : DB) (authorization : option Z)
    (body : TransferCreate.t) : DB * Result Transfer.t :=
  match get_current_user db authorization with
  | Err e => (db, Err e)
  | Ok current_user =>
      if TransferCreate.valid body then create_transfer db current_user body
      else (db, Err RequestValidationError)
  end.

(** The endpoints that read: the dependency [get_current_user], then the
    handler. *)
Definition get_users_me (db : DB) (authorization : option Z) : Result User.t :=
  match get_current_user db authorization with
  | Err e => Err e
  | Ok current_user => Ok (get_current_user_info current_user)
  end.

Definition get_accounts (db : DB) (authorization : option Z)
  : Result (list Account.t) :=
  match get_current_user db authorization with
  | Err e => Err e
  | Ok current_user => Ok (list_accounts db current_user)
  end.

Definition get_accounts_id (db : DB) (authorization : option Z) (account_id : Z)
  : Result Account.t :=
  match get_current_user db authorization with
  | Err e => Err e
  | Ok current_user => get_account db current_user account_id
  end.

Definition get_transfers (db : DB) (authorization : option Z)
  : Result (list Transfer.t) :=
  match get_current_user db authorization with
  | Err e => Err e
  | Ok current_user => Ok (list_transfers db current_user)
  end.

(** The states of the service: what a sequence of requests makes of the
    empty database. *)
Inductive reachable : DB → Prop :=
| reachable_empty : reachable empty_db
| reachable_post_users db body :
    reachable db → reachable (post_users db body).1
| reachable_post_accounts db authorization body :
    reachable db → reachable (post_accounts db authorization body).1
| reachable_post_transfers db authorization body :
    reachable db → reachable (post_transfers db authorization body).1.

(** * Notions used to state the properties *)

(** ** Amounts and balances *)

(** The amount in hundredths, for a decimal with at most two fractional
    digits. *)
Definition cents (d : Decimal.t) : Z := Decimal.scaled (- Numeric.scale) d.

(** A decimal written with at most two fractional digits. *)
Definition two_places (d : Decimal.t) : Prop := - Numeric.scale ≤ Decimal.exp d.

(** A balance as a column holds it, and not below zero. *)
Definition balance_ok (a : Account.t) : Prop :=
  Numeric.stored (Account.balance a) ∧ 0 ≤ Decimal.coef (Account.balance a).

Definition ledger_ok (db : DB) : Prop :=
  ∀ id a, accounts db !! id = Some a → balance_ok a.

(** ** The outcome of a transfer *)

(** What the database holds after a transfer between [X] and [Y] whose
    new balances are [bX] and [bY]. *)
Definition transferred (db : DB) (td : TransferCreate.t) (X Y : Account.t)
    (bX bY amt : Decimal.t) : DB :=
  mkDB (users db)
       (<[TransferCreate.to_account_id td := Account.with_balance Y bY]>
          (<[TransferCreate.from_account_id td := Account.with_balance X bX]>
             (accounts db)))
       (<[next_id (transfers db) :=
            Transfer.mk (next_id (transfers db))
                        (TransferCreate.from_account_id td)
                        (TransferCreate.to_account_id td) amt]> (transfers db)).

(** The six checks of the handler, passed with the source [X] and the
    destination [Y]. *)
Record checked (db : DB) (u : User.t) (td : TransferCreate.t)
    (X Y : Account.t) : Prop := {
  chk_source : accounts db !! TransferCreate.from_account_id td = Some X;
  chk_owner : Account.user_id X = User.id u;
  chk_destination : accounts db !! TransferCreate.to_account_id td = Some Y;
  chk_currency : Account.currency X = Account.currency Y;
  chk_balance : Decimal.ltb (Account.balance X) (TransferCreate.amount td) = false;
  chk_distinct : TransferCreate.from_account_id td ≠ TransferCreate.to_account_id td
}.

(** ** The validation sequence

    The seven checks on a transfer request and, for each of them, what it
    is for a request to violate it whatever the other checks say.  The check
    on the amount is a parameter: the request schema and the specification
    do not ask the same of it. *)

Inductive Check : Type :=
| SourceExists
| SourceOwned
| DestinationExists
| CurrenciesMatch
| BalanceCovers
| AccountsDiffer
| AmountValid.

Definition violates (amount_ok : Decimal.t → bool) (db : DB) (u : User.t)
    (td : TransferCreate.t) (c : Check) : bool :=
  let source := accounts db !! TransferCreate.from_account_id td in
  let destination := accounts db !! TransferCreate.to_account_id td in
  match c with
  | SourceExists => match source with None => true | Some _ => false end
  | SourceOwned =>
      match source with
      | Some X => bool_decide (Account.user_id X ≠ User.id u)
      | None => false
      end
  | DestinationExists => match destination with None => true | Some _ => false end
  | CurrenciesMatch =>
      match source, destination with
      | Some X, Some Y => bool_decide (Account.currency X ≠ Account.currency Y)
      | _, _ => false
      end
  | BalanceCovers =>
      match source with
      | Some X => Decimal.ltb (Account.balance X) (TransferCreate.amount td)
      | None => false
      end
  | AccountsDiffer =>
      bool_decide (TransferCreate.from_account_id td = TransferCreate.to_account_id td)
  | AmountValid => negb (amount_ok (TransferCreate.amount td))
  end.

(** The first check of [order] that the request violates. *)
Definition first_violation (amount_ok : Decimal.t → bool) (order : list Check)
    (db : DB) (u : User.t) (td : TransferCreate.t) : option Check :=
  List.find (violates amount_ok db u td) order.

(** The validation sequence as the specification words it (section 4.1):
    the seven checks in the order it lists them, the amount last, and the
    error it names for each. *)
Module Spec.

Inductive TransferError : Type :=
| AccountNotFoundSource
| NotOwner
| AccountNotFoundDestination
| CurrencyMismatch
| InsufficientBalance
| SameAccount
| InvalidAmount.

Definition error_of (c : Check) : TransferError :=
  match c with
  | SourceExists => AccountNotFoundSource
  | SourceOwned => NotOwner
  | DestinationExists => AccountNotFoundDestination
  | CurrenciesMatch => CurrencyMismatch
  | BalanceCovers => InsufficientBalance
  | AccountsDiffer => SameAccount
  | AmountValid => InvalidAmount
  end.

Definition order : list Check :=
  [SourceExists; SourceOwned; DestinationExists; CurrenciesMatch;
   BalanceCovers; AccountsDiffer; AmountValid].

(** "A positive, correctly-scaled value": above zero and a whole number of
    hundredths. *)
Definition amount_ok (d : Decimal.t) : bool :=
  (0 <? Decimal.coef d)
  && ((- Numeric.scale <=? Decimal.exp d)
      || (Decimal.coef d mod 10 ^ (- Numeric.scale - Decimal.exp d) =? 0)).

(** The error the specification expects for a request. *)
Definition expected_error (db : DB) (u : User.t) (td : TransferCreate.t)
  : option TransferError :=
  error_of <$> first_violation amount_ok order db u td.

End Spec.

(** The error of the specification that a response of the service stands
    for (section 6); a body refused by the schema of the request is the
    report of an invalid amount. *)
Definition kind_of (e : Error) : option Spec.TransferError :=
  match e with
  | SourceAccountNotFound => Some Spec.AccountNotFoundSource
  | NotOwner => Some Spec.NotOwner
  | DestinationAccountNotFound => Some Spec.AccountNotFoundDestination
  | CurrencyMismatch _ _ => Some Spec.CurrencyMismatch
  | InsufficientBalance _ => Some Spec.InsufficientBalance
  | SameAccount => Some Spec.SameAccount
  | RequestValidationError => Some Spec.InvalidAmount
  | _ => None
  end.

(** The order in which the service applies the checks: the schema of the
    request first, then the handler. *)
Definition applied_order : list Check :=
  [AmountValid; SourceExists; SourceOwned; DestinationExists; CurrenciesMatch;
   BalanceCovers; AccountsDiffer].

(** What the schema of the request asks of the amount ([gt=0]). *)
Definition amount_positive (d : Decimal.t) : bool := 0 <? Decimal.coef d.

(** ** Currency codes that differ in letter case only *)

Definition case_variant (a b : ascii) : Prop :=
  a = b ∨ upper_char a = b ∨ a = upper_char b.

Fixpoint same_up_to_case (s1 s2 : string) : Prop :=
  match s1, s2 with
  | EmptyString, EmptyString => True
  | String a s1', String b s2' => case_variant a b ∧ same_up_to_case s1' s2'
  | _, _ => False
  end.

(** ** Another owner for an account *)


(** ** A scenario

    Two users with one account in US dollars each, as the tests set them
    up: Alice holds 1000.00 in account 1 and Bob 500.00 in account 2. *)
Module Scenario.

Definition alice : User.t := User.mk 1 "Alice".
Definition bob : User.t := User.mk 2 "Bob".

Definition db1 : DB := (post_users empty_db (UserCreate.mk "Alice")).1.
Definition db2 : DB := (post_users db1 (UserCreate.mk "Bob")).1.
Definition db3 : DB :=
  (post_accounts db2 (Some 1)
     (AccountCreate.mk "savings" "USD" (Decimal.mk 100000 (-2)))).1.
Definition db : DB :=
  (post_accounts db3 (Some 2)
     (AccountCreate.mk "checking" "USD" (Decimal.mk 50000 (-2)))).1.

(** One user with two accounts in US dollars, 1000.00 and 500.00. *)
Definition frank_db : DB :=
  let db := (post_users empty_db (UserCreate.mk "Frank")).1 in
  let db := (post_accounts db (Some 1)
               (AccountCreate.mk "savings" "USD" (Decimal.mk 1000 0))).1 in
  (post_accounts db (Some 1)
     (AccountCreate.mk "checking" "USD" (Decimal.mk 500 0))).1.

(** The balances of the accounts 1 and 2. *)
Definition balances (db : DB) : list (Z * Decimal.t) :=
  (λ a, (Account.id a, Account.balance a)) <$>
    omap (λ id, accounts db !! id) [1; 2].

End Scenario.

(** ** Requests that write *)

Inductive Request : Type :=
| PostUsers (body : UserCreate.t)
| PostAccounts (authorization : option Z) (body : AccountCreate.t)
| PostTransfers (authorization : option Z) (body : TransferCreate.t).

(** The database that a request leaves. *)
Definition after (db : DB) (r : Request) : DB :=
  match r with
  | PostUsers body => (post_users db body).1
  | PostAccounts authorization body => (post_accounts db authorization body).1
  | PostTransfers authorization body => (post_transfers db authorization body).1
  end.

(** The database that a sequence of requests leaves. *)
Definition run (db : DB) (rs : list Request) : DB := fold_left after rs db.

(** ** Rows, keys and references *)

(** Every row of the table is found under its own [id]. *)
Definition keyed {A} (id : A → Z) (table : gmap Z A) : Prop :=
  ∀ k row, table !! k = Some row → id row = k.

(** The account [account_id] exists and belongs to [u]. *)
Definition owns (db : DB) (u : User.t) (account_id : Z) : Prop :=
  ∃ a, accounts db !! account_id = Some a ∧ Account.user_id a = User.id u.

(** A transfer between two distinct accounts of the database that hold one
    currency. *)
Definition linked (db : DB) (t : Transfer.t) : Prop :=
  Transfer.from_account_id t ≠ Transfer.to_account_id t ∧
  ∃ X Y, accounts db !! Transfer.from_account_id t = Some X ∧
         accounts db !! Transfer.to_account_id t = Some Y ∧
         Account.currency X = Account.currency Y.

Record consistent (db : DB) : Prop := {
  users_keyed : keyed User.id (users db);
  accounts_keyed : keyed Account.id (accounts db);
  transfers_keyed : keyed Transfer.id (transfers db);
  accounts_owned :
    ∀ k a, accounts db !! k = Some a → is_Some (users db !! Account.user_id a);
  transfers_linked : ∀ k t, transfers db !! k = Some t → linked db t
}.

(** The same account, whatever the balance. *)
Definition same_account (a a' : Account.t) : Prop :=
  Account.id a' = Account.id a ∧
  Account.user_id a' = Account.user_id a ∧
  Account.account_type a' = Account.account_type a ∧
  Account.currency a' = Account.currency a.

(** What the schemas and the columns ask of the rows. *)
Definition user_conforms (u : User.t) : Prop :=
  (1 ≤ String.length (User.name u) ≤ 100)%nat.

Definition account_conforms (a : Account.t) : Prop :=
  (1 ≤ String.length (Account.account_type a) ≤ 50)%nat ∧
  String.length (Account.currency a) = 3%nat ∧
  upper (Account.currency a) = Account.currency a.

Definition transfer_conforms (t : Transfer.t) : Prop :=
  Numeric.stored (Transfer.amount t) ∧ 0 ≤ Decimal.coef (Transfer.amount t).

Definition conforming (db : DB) : Prop :=
  (∀ k u, users db !! k = Some u → user_conforms u) ∧
  (∀ k a, accounts db !! k = Some a → account_conforms a) ∧
  (∀ k t, transfers db !! k = Some t → transfer_conforms t).

(** What an account holds in a currency, in hundredths. *)
Definition holding (currency : string) (a : Account.t) : Z :=
  if bool_decide (Account.currency a = currency)
  then cents (Account.balance a) else 0.

(** The money held in a currency, in hundredths: the sum of the balances of
    the accounts of that currency. *)
Definition total (currency : string) (db : DB) : Z :=
  map_fold (λ _ a acc, holding currency a + acc) 0 (accounts db).

(** ** A transfer under way

    [create_transfer] takes no lock and asks for none ([with_for_update] is
    nowhere in the source): it sends two plain queries, decides on their
    answers, and writes at the commit.  Between these three moments other
    requests may be served.  The handler is cut here at these moments. *)









(** Two requests of Alice, each to send 600.00 of her 1000.00 to Bob, that
    are served at the same time: both read, then both commit. *)
Module Race.

Definition td : TransferCreate.t := TransferCreate.mk 1 2 (Decimal.mk 60000 (-2)).

(** What both requests read. *)
Definition from_account : Account.t :=
  Account.mk 1 1 "savings" "USD" (Decimal.mk 100000 (-2)).

(** What both requests assign. *)
Definition balances : Decimal.t * Decimal.t :=
  (Decimal.mk 40000 (-2), Decimal.mk 110000 (-2)).



End Race.

(** * Properties *)

(** ** Rounding *)

Section Rounding.

Lemma div_abs_nonneg n p : 0 ≤ p → 0 ≤ Z.abs n / p.
Proof.
  intros Hp. destruct (Z.eq_dec p 0) as [->|Hne].
  - by rewrite Z.div_0_r.
  - apply Z.div_pos; lia.
Qed.

Lemma sgn_mul_nonneg n q : 0 ≤ n → 0 ≤ q → 0 ≤ Z.sgn n * q.
Proof. intros Hn Hq. apply Z.mul_nonneg_nonneg; lia. Qed.

Lemma round_half_even_nonneg n p :
  0 ≤ n → 0 ≤ p → 0 ≤ Decimal.round_half_even n p.
Proof.
  intros Hn Hp. unfold Decimal.round_half_even.
  pose proof (div_abs_nonneg n p Hp).
  apply sgn_mul_nonneg; [done|].
  repeat case_match; lia.
Qed.

Lemma round_half_up_nonneg n p :
  0 ≤ n → 0 ≤ p → 0 ≤ Numeric.round_half_up n p.
Proof.
  intros Hn Hp. unfold Numeric.round_half_up.
  pose proof (div_abs_nonneg n p Hp).
  apply sgn_mul_nonneg; [done|].
  case_match; lia.
Qed.

(** A multiple of [p] is divided exactly. *)
Lemma round_half_up_exact c p : 0 < p → Numeric.round_half_up (c * p) p = c.
Proof.
  intros Hp. unfold Numeric.round_half_up.
  rewrite Z.abs_mul, (Z.abs_eq p) by lia.
  rewrite Z.div_mul, Z.mod_mul by lia.
  replace (2 * 0 <? p) with true by (symmetry; apply Z.ltb_lt; lia).
  rewrite Z.sgn_mul, (Z.sgn_pos p) by lia.
  lia.
Qed.

Lemma pow10_nonneg k : 0 ≤ 10 ^ k.
Proof. apply Z.pow_nonneg; lia. Qed.

Lemma pow10_pos k : 0 ≤ k → 0 < 10 ^ k.
Proof. intros. apply Z.pow_pos_nonneg; lia. Qed.

End Rounding.

(** ** Decimal arithmetic *)

(** [Decimal('1000.00') - Decimal('1E-29')] needs 32 digits and is rounded to
    28: [Decimal('1000.000000000000000000000000')]. *)
Example sub_rounds_to_context_precision :
  Decimal.sub (Decimal.mk 100000 (-2)) (Decimal.mk 1 (-29))
  = Decimal.mk (10 ^ 27) (-24).
Proof. reflexivity. Qed.

(** [Decimal('1000.00') - Decimal('200.00')] is [Decimal('800.00')]. *)
Example sub_exact_at_scale_2 :
  Decimal.sub (Decimal.mk 100000 (-2)) (Decimal.mk 20000 (-2))
  = Decimal.mk 80000 (-2).
Proof. reflexivity. Qed.

Section DecimalFacts.

Implicit Types a b d : Decimal.t.

(** Within the context precision nothing is rounded. *)
Lemma fix_small d :
  Z.abs (Decimal.coef d) < 10 ^ Decimal.prec → Decimal.fix_ d = d.
Proof.
  intros H. unfold Decimal.fix_.
  by replace (_ <? _) with true by (symmetry; by apply Z.ltb_lt).
Qed.

Lemma fix_nonneg d :
  0 ≤ Decimal.coef d → 0 ≤ Decimal.coef (Decimal.fix_ d).
Proof.
  intros H. unfold Decimal.fix_.
  pose proof (round_half_even_nonneg (Decimal.coef d)
                (10 ^ (Decimal.ndigits (Decimal.coef d) - Decimal.prec))
                H (pow10_nonneg _)) as Hr.
  repeat case_match; simpl; try done.
  apply Z.quot_pos; lia.
Qed.

Lemma ndigits_from_spec fuel k n :
  1 ≤ k →
  Z.abs n < 10 ^ (k + Z.of_nat fuel) →
  k = 1 ∨ 10 ^ (k - 1) ≤ Z.abs n →
  Z.abs n < 10 ^ Decimal.ndigits_from fuel k n ∧
  (Decimal.ndigits_from fuel k n = 1
   ∨ 10 ^ (Decimal.ndigits_from fuel k n - 1) ≤ Z.abs n).
Proof.
  revert k. induction fuel as [|fuel IH]; intros k Hk Hup Hlow; simpl.
  - by rewrite Z.add_0_r in Hup.
  - destruct (Z.abs n <? 10 ^ k) eqn:E.
    + by apply Z.ltb_lt in E.
    + apply Z.ltb_ge in E. apply IH; [lia | |].
      * by replace (k + 1 + Z.of_nat fuel) with (k + Z.of_nat (S fuel)) by lia.
      * right. by replace (k + 1 - 1) with k by lia.
Qed.

(** [ndigits] counts the decimal digits. *)
Lemma ndigits_spec n :
  Z.abs n < 10 ^ Decimal.ndigits n ∧
  (Decimal.ndigits n = 1 ∨ 10 ^ (Decimal.ndigits n - 1) ≤ Z.abs n).
Proof.
  unfold Decimal.ndigits. apply ndigits_from_spec; [lia | | by left].
  pose proof (Z.log2_up_nonneg (Z.abs n)) as HL.
  rewrite Z2Nat.id by done.
  destruct (Z_le_gt_dec (Z.abs n) 1) as [Hs|Hb].
  - rewrite Z.log2_up_eqn0 by done. simpl. lia.
  - pose proof (Z.log2_up_spec (Z.abs n) ltac:(lia)) as [_ H2].
    assert (2 ^ Z.log2_up (Z.abs n) ≤ 10 ^ Z.log2_up (Z.abs n))
      by (apply Z.pow_le_mono_l; lia).
    assert (10 ^ Z.log2_up (Z.abs n) < 10 ^ (1 + Z.log2_up (Z.abs n)))
      by (apply Z.pow_lt_mono_r; lia).
    lia.
Qed.

(** The coefficient that [fix_] leaves fits the context precision. *)
Lemma fix_prec d : Z.abs (Decimal.coef (Decimal.fix_ d)) < 10 ^ Decimal.prec.
Proof.
  unfold Decimal.fix_.
  destruct (Z.abs (Decimal.coef d) <? 10 ^ Decimal.prec) eqn:E1.
  { by apply Z.ltb_lt in E1. }
  apply Z.ltb_ge in E1.
  set (n := Decimal.coef d) in *.
  set (k := Decimal.ndigits n - Decimal.prec).
  destruct (Z.abs (Decimal.round_half_even n (10 ^ k)) <? 10 ^ Decimal.prec) eqn:E2.
  { by apply Z.ltb_lt in E2. }
  apply Z.ltb_ge in E2. simpl.
  destruct (ndigits_spec n) as [Hup _]. fold n in Hup.
  assert (0 ≤ k) as Hk.
  { subst k. enough (Decimal.prec < Decimal.ndigits n) by lia.
    apply (Z.pow_lt_mono_r_iff 10); [lia | | lia].
    destruct (Z_lt_le_dec (Decimal.ndigits n) 0) as [Hneg|]; [|done].
    rewrite Z.pow_neg_r in Hup by done. lia. }
  assert (Z.abs (Decimal.round_half_even n (10 ^ k)) ≤ 10 ^ Decimal.prec) as Hle.
  { unfold Decimal.round_half_even.
    assert (0 < 10 ^ k) as Hp by by apply pow10_pos.
    assert (Z.abs n / 10 ^ k < 10 ^ Decimal.prec) as Hq.
    { apply Z.div_lt_upper_bound; [done|].
      rewrite <- Z.pow_add_r by (unfold Decimal.prec; lia).
      by replace (k + Decimal.prec) with (Decimal.ndigits n) by (subst k; lia). }
    pose proof (div_abs_nonneg n (10 ^ k) ltac:(lia)).
    rewrite Z.abs_mul. 
    assert (Z.abs (Z.sgn n) ≤ 1) by lia.
    repeat case_match; nia. }
  assert (Z.abs (Decimal.round_half_even n (10 ^ k)) = 10 ^ Decimal.prec) as Heq by lia.
  rewrite <- Z.quot_abs by done. rewrite Heq. done.
Qed.

Lemma scaled_neg e b : Decimal.scaled e (Decimal.neg b) = - Decimal.scaled e b.
Proof. unfold Decimal.scaled, Decimal.neg. simpl. lia. Qed.

Lemma scaled_nonneg e d : 0 ≤ Decimal.coef d → 0 ≤ Decimal.scaled e d.
Proof.
  intros H. unfold Decimal.scaled.
  apply Z.mul_nonneg_nonneg; [done | apply pow10_nonneg].
Qed.

Lemma scaled_same d : Decimal.scaled (Decimal.exp d) d = Decimal.coef d.
Proof. unfold Decimal.scaled. rewrite Z.sub_diag. simpl. lia. Qed.

(** The sum of two non-negative decimals is non-negative. *)
Lemma add_nonneg a b :
  0 ≤ Decimal.coef a → 0 ≤ Decimal.coef b →
  0 ≤ Decimal.coef (Decimal.add a b).
Proof.
  intros Ha Hb. unfold Decimal.add. apply fix_nonneg. simpl.
  pose proof (scaled_nonneg (Z.min (Decimal.exp a) (Decimal.exp b)) a Ha).
  pose proof (scaled_nonneg (Z.min (Decimal.exp a) (Decimal.exp b)) b Hb).
  lia.
Qed.

(** A difference that the comparison allows is non-negative. *)
Lemma sub_nonneg a b :
  Decimal.ltb a b = false → 0 ≤ Decimal.coef (Decimal.sub a b).
Proof.
  unfold Decimal.ltb, Decimal.sub, Decimal.add.
  intros H%Z.ltb_ge. apply fix_nonneg. simpl.
  rewrite scaled_neg.
  replace (Decimal.exp (Decimal.neg b)) with (Decimal.exp b) by done.
  lia.
Qed.

End DecimalFacts.

(** ** The columns *)

(** 999.995 is stored as 1000.00, and 10000000000000.00 is refused. *)
Example store_rounds_half_away_from_zero :
  Numeric.store (Decimal.mk 999995 (-3)) = Some (Decimal.mk 100000 (-2)).
Proof. reflexivity. Qed.

Example store_refuses_14_integer_digits :
  Numeric.store (Decimal.mk (10 ^ 13) 0) = None.
Proof. reflexivity. Qed.

Section NumericFacts.

Implicit Types d b : Decimal.t.

Lemma store_stored d b : Numeric.store d = Some b → Numeric.stored b.
Proof.
  unfold Numeric.store. case_match eqn:H; [|done].
  intros [= <-]. apply Z.ltb_lt in H. by split.
Qed.

Lemma rescale_nonneg d : 0 ≤ Decimal.coef d → 0 ≤ Numeric.rescale d.
Proof.
  intros H. unfold Numeric.rescale. case_match.
  - by apply scaled_nonneg.
  - apply round_half_up_nonneg; [done | apply pow10_nonneg].
Qed.

Lemma store_nonneg d b :
  0 ≤ Decimal.coef d → Numeric.store d = Some b → 0 ≤ Decimal.coef b.
Proof.
  intros Hd. unfold Numeric.store. case_match; [|done].
  intros [= <-]. simpl. by apply rescale_nonneg.
Qed.

(** Writing back what a column holds changes nothing. *)
Lemma store_id d : Numeric.stored d → Numeric.store d = Some d.
Proof.
  destruct d as [c e]. intros [He Hc]. simpl in *. subst e.
  unfold Numeric.store, Numeric.rescale, Decimal.scaled. simpl.
  replace (c * 10 ^ _) with c by (rewrite Z.sub_diag; simpl; lia).
  by replace (_ <? _) with true by (symmetry; by apply Z.ltb_lt).
Qed.

End NumericFacts.

(** ** The handler of a transfer *)

Section Transfer.

Implicit Types (db : DB) (u : User.t) (td : TransferCreate.t).

(** Past the checks, the handler writes the two balances and the transfer,
    or nothing when the database refuses one of the three values. *)
Lemma create_transfer_checked db u td X Y :
  checked db u td X Y →
  create_transfer db u td =
    match Numeric.store (Decimal.sub (Account.balance X) (TransferCreate.amount td)),
          Numeric.store (Decimal.add (Account.balance Y) (TransferCreate.amount td)),
          Numeric.store (TransferCreate.amount td) with
    | Some bX, Some bY, Some amt =>
        (transferred db td X Y bX bY amt,
         Ok (Transfer.mk (next_id (transfers db))
                         (TransferCreate.from_account_id td)
                         (TransferCreate.to_account_id td) amt))
    | _, _, _ => (db, Err DataError)
    end.
Proof.
  intros [Hs Ho Hd Hc Hb Hne].
  unfold create_transfer. rewrite Hs, Hd, Hb.
  rewrite (bool_decide_eq_false_2 (Account.user_id X ≠ User.id u)) by tauto.
  rewrite (bool_decide_eq_false_2 (Account.currency X ≠ Account.currency Y)) by tauto.
  rewrite bool_decide_eq_false_2 by done.
  unfold flush_account, update_balance.
  rewrite lookup_alter_ne, lookup_alter_eq, Hs by done. simpl.
  destruct (Numeric.store (Decimal.sub _ _)) as [bX|]; simpl; [|done].
  rewrite lookup_insert_ne, lookup_alter_eq, lookup_alter_ne, Hd by done. simpl.
  destruct (Numeric.store (Decimal.add _ _)) as [bY|]; simpl; [|done].
  destruct (Numeric.store (TransferCreate.amount td)) as [amt|]; simpl; [|done].
  f_equal. unfold transferred. f_equal.
  apply map_eq. intros k.
  destruct (decide (k = TransferCreate.to_account_id td)) as [->|Hk1].
  { by rewrite !lookup_insert_eq. }
  rewrite !(lookup_insert_ne _ (TransferCreate.to_account_id td)) by done.
  destruct (decide (k = TransferCreate.from_account_id td)) as [->|Hk2].
  { by rewrite !lookup_insert_eq. }
  rewrite !lookup_insert_ne, !lookup_alter_ne by done. done.
Qed.

(** A committed transfer passed the six checks and wrote the three
    values. *)
Lemma create_transfer_committed db u td db' t :
  create_transfer db u td = (db', Ok t) →
  ∃ X Y bX bY amt,
    checked db u td X Y ∧
    Numeric.store (Decimal.sub (Account.balance X) (TransferCreate.amount td)) = Some bX ∧
    Numeric.store (Decimal.add (Account.balance Y) (TransferCreate.amount td)) = Some bY ∧
    Numeric.store (TransferCreate.amount td) = Some amt ∧
    db' = transferred db td X Y bX bY amt ∧
    t = Transfer.mk (next_id (transfers db))
                    (TransferCreate.from_account_id td)
                    (TransferCreate.to_account_id td) amt.
Proof.
  intros H.
  assert (∃ X Y, checked db u td X Y) as (X & Y & Hchk).
  { unfold create_transfer in H.
    destruct (accounts db !! TransferCreate.from_account_id td) as [X|] eqn:Hs; [|done].
    case_bool_decide as Ho; [done|].
    destruct (accounts db !! TransferCreate.to_account_id td) as [Y|] eqn:Hd; [|done].
    case_bool_decide as Hc; [done|].
    destruct (Decimal.ltb _ _) eqn:Hb; [done|].
    case_bool_decide as Hne; [done|].
    exists X, Y. split; try done; by apply dec_stable. }
  rewrite (create_transfer_checked _ _ _ _ _ Hchk) in H.
  destruct (Numeric.store (Decimal.sub _ _)) as [bX|] eqn:HX; [|done].
  destruct (Numeric.store (Decimal.add _ _)) as [bY|] eqn:HY; [|done].
  destruct (Numeric.store (TransferCreate.amount td)) as [amt|] eqn:HA; [|done].
  inversion H; subst. by exists X, Y, bX, bY, amt.
Qed.

(** A request that is answered with an error leaves the database as it
    was. *)
Lemma create_transfer_rejected db u td db' e :
  create_transfer db u td = (db', Err e) → db' = db.
Proof.
  unfold create_transfer. intros H.
  repeat (case_match; simplify_eq; try done).
Qed.

End Transfer.

(** ** The numbers behind the decimals *)

Section Value.

Implicit Types a b d : Decimal.t.

Lemma ten_pos : (0 < 10 # 1)%Q.
Proof. reflexivity. Qed.

Lemma ten_neq_0 : ¬ (10 # 1 == 0)%Q.
Proof. discriminate. Qed.

Lemma pow10_Q_pos e : (0 < (10 # 1) ^ e)%Q.
Proof. apply Qpower_0_lt, ten_pos. Qed.

(** A decimal written with a smaller exponent stands for the same
    number. *)
Lemma value_scaled e d :
  e ≤ Decimal.exp d →
  (Decimal.value d == inject_Z (Decimal.scaled e d) * (10 # 1) ^ e)%Q.
Proof.
  intros He. unfold Decimal.value, Decimal.scaled.
  rewrite inject_Z_mult, Zpower_Qpower by lia.
  change (inject_Z 10) with (10 # 1).
  rewrite <- Qmult_assoc, <- Qpower_plus by apply ten_neq_0.
  by replace (Decimal.exp d - e + e) with (Decimal.exp d) by lia.
Qed.

Lemma value_nonneg d : 0 ≤ Decimal.coef d ↔ (0 <= Decimal.value d)%Q.
Proof.
  unfold Decimal.value. rewrite Zle_Qle.
  rewrite <- (Qmult_le_r _ _ _ (pow10_Q_pos (Decimal.exp d))).
  change (inject_Z 0) with 0%Q. by rewrite Qmult_0_l.
Qed.

Lemma value_pos d : 0 < Decimal.coef d ↔ (0 < Decimal.value d)%Q.
Proof.
  unfold Decimal.value. rewrite Zlt_Qlt.
  rewrite <- (Qmult_lt_r _ _ _ (pow10_Q_pos (Decimal.exp d))).
  change (inject_Z 0) with 0%Q. by rewrite Qmult_0_l.
Qed.

(** [<] on decimals is [<] on the numbers. *)
Lemma ltb_lt a b :
  Decimal.ltb a b = true ↔ (Decimal.value a < Decimal.value b)%Q.
Proof.
  unfold Decimal.ltb.
  set (e := Z.min (Decimal.exp a) (Decimal.exp b)).
  rewrite (value_scaled e a), (value_scaled e b) by lia.
  rewrite Qmult_lt_r by apply pow10_Q_pos.
  rewrite <- Zlt_Qlt. apply Z.ltb_lt.
Qed.

Lemma ltb_ge a b :
  Decimal.ltb a b = false ↔ (Decimal.value b <= Decimal.value a)%Q.
Proof.
  rewrite <- not_true_iff_false, ltb_lt. split.
  - apply Qnot_lt_le.
  - apply Qle_not_lt.
Qed.

(** What a column holds, in hundredths. *)
Lemma value_stored d :
  Numeric.stored d → (Decimal.value d == Decimal.coef d # 100)%Q.
Proof.
  intros [He _]. unfold Decimal.value. rewrite He.
  unfold Qeq. simpl. lia.
Qed.

End Value.

(** ** Amounts with at most two fractional digits *)

Section Cents.

Implicit Types a b d : Decimal.t.

Lemma value_cents d :
  - Numeric.scale ≤ Decimal.exp d → (Decimal.value d == cents d # 100)%Q.
Proof.
  intros He. rewrite (value_scaled (- Numeric.scale) d He). fold (cents d).
  unfold Qeq. simpl. lia.
Qed.

Lemma cents_stored d : Numeric.stored d → cents d = Decimal.coef d.
Proof.
  intros [He _]. unfold cents. rewrite <- He. apply scaled_same.
Qed.

Lemma min_scale d :
  - Numeric.scale ≤ Decimal.exp d → Z.min (- Numeric.scale) (Decimal.exp d) = - Numeric.scale.
Proof. lia. Qed.

(** Subtracting such an amount from a stored balance that covers it is
    exact. *)
Lemma sub_exact a b :
  Numeric.stored a → - Numeric.scale ≤ Decimal.exp b →
  0 ≤ cents b ≤ Decimal.coef a →
  Decimal.sub a b = Decimal.mk (Decimal.coef a - cents b) (- Numeric.scale).
Proof.
  intros Ha He Hb. pose proof (cents_stored a Ha) as Hca.
  destruct Ha as [Hea Hla].
  unfold Decimal.sub, Decimal.add.
  replace (Decimal.exp (Decimal.neg b)) with (Decimal.exp b) by done.
  rewrite Hea, (min_scale b He), scaled_neg.
  fold (cents a) (cents b). rewrite Hca.
  apply fix_small. simpl.
  assert (10 ^ Numeric.precision < 10 ^ Decimal.prec) by done. lia.
Qed.

(** Adding such an amount to a stored balance is exact. *)
Lemma add_exact a b :
  Numeric.stored a → - Numeric.scale ≤ Decimal.exp b →
  0 ≤ cents b < 10 ^ Numeric.precision →
  Decimal.add a b = Decimal.mk (Decimal.coef a + cents b) (- Numeric.scale).
Proof.
  intros Ha He Hb. pose proof (cents_stored a Ha) as Hca.
  destruct Ha as [Hea Hla].
  unfold Decimal.add.
  rewrite Hea, (min_scale b He).
  fold (cents a) (cents b). rewrite Hca.
  apply fix_small. simpl.
  assert (2 * 10 ^ Numeric.precision < 10 ^ Decimal.prec) by done. lia.
Qed.


Lemma value_hundredths c :
  (Decimal.value (Decimal.mk c (- Numeric.scale)) == c # 100)%Q.
Proof. unfold Decimal.value, Qeq. simpl. lia. Qed.


Lemma Qmake_plus_100 x y : ((x + y) # 100 == (x # 100) + (y # 100))%Q.
Proof. unfold Qeq, Qplus. simpl. lia. Qed.

End Cents.

(** ** The invariant of the ledger *)

Section Invariant.

Lemma ledger_ok_empty : ledger_ok empty_db.
Proof. intros id a. simpl. by rewrite lookup_empty. Qed.

Lemma ledger_ok_insert us accs ts us' ts' id a :
  ledger_ok (mkDB us accs ts) → balance_ok a →
  ledger_ok (mkDB us' (<[id := a]> accs) ts').
Proof.
  intros Hdb Ha k b. simpl. rewrite lookup_insert.
  case_decide; [by intros [= <-] | apply Hdb].
Qed.

Lemma create_user_ledger_ok db body :
  ledger_ok db → ledger_ok (create_user db body).1.
Proof.
  intros H. unfold create_user. case_match; [|done]. intros id a. apply H.
Qed.

Lemma create_account_ledger_ok db u body :
  AccountCreate.valid body = true →
  ledger_ok db → ledger_ok (create_account db u body).1.
Proof.
  intros Hv Hdb. unfold create_account. case_match; [|done].
  destruct (Numeric.store _) as [b|] eqn:Hb; [|done]. simpl.
  destruct db as [us accs ts]. apply (ledger_ok_insert us accs ts); [done|].
  unfold AccountCreate.valid in Hv.
  apply andb_prop in Hv as [_ Hv%Z.leb_le].
  split; simpl; eauto using store_stored, store_nonneg.
Qed.

Lemma create_transfer_ledger_ok db u body :
  TransferCreate.valid body = true →
  ledger_ok db → ledger_ok (create_transfer db u body).1.
Proof.
  intros Hv%Z.ltb_lt Hdb.
  destruct (create_transfer db u body) as [db' [t|e]] eqn:H; simpl.
  - apply create_transfer_committed in H
      as (X & Y & bX & bY & amt & Hchk & HX & HY & _ & -> & _).
    destruct Hchk as [Hs _ Hd _ Hlt _].
    destruct (Hdb _ _ Hd) as [_ HY0].
    destruct db as [us accs ts]. unfold transferred. simpl.
    apply (ledger_ok_insert us _ ts); [apply (ledger_ok_insert us accs ts)|]; try done.
    + split; simpl; [by eapply store_stored|].
      eapply store_nonneg; [|done]. by apply sub_nonneg.
    + split; simpl; [by eapply store_stored|].
      eapply store_nonneg; [|done]. apply add_nonneg; lia.
  - by rewrite (create_transfer_rejected _ _ _ _ _ H).
Qed.

Lemma reachable_ledger_ok db : reachable db → ledger_ok db.
Proof.
  induction 1 as [|db body _ IH|db auth body _ IH|db auth body _ IH].
  - apply ledger_ok_empty.
  - unfold post_users. case_match; [by apply create_user_ledger_ok | done].
  - unfold post_accounts. destruct (get_current_user db auth); [|done].
    case_match; [by apply create_account_ledger_ok | done].
  - unfold post_transfers. destruct (get_current_user db auth); [|done].
    case_match; [by apply create_transfer_ledger_ok | done].
Qed.

End Invariant.


(** ** The scenario *)

Section ScenarioFacts.

Lemma scenario_reachable : reachable Scenario.db.
Proof. repeat constructor. Qed.

Lemma scenario_bob : get_current_user Scenario.db (Some 2) = Ok Scenario.bob.
Proof. by vm_compute. Qed.

End ScenarioFacts.

(** ** The tests of the service ([test_main.py]) *)

Section Tests.

(** [test_transfer_same_user]: 201, then 800.00 and 700.00. *)
Example test_transfer_same_user :
  let r := post_transfers Scenario.frank_db (Some 1)
             (TransferCreate.mk 1 2 (Decimal.mk 20000 (-2))) in
  r.2 = Ok (Transfer.mk 1 1 2 (Decimal.mk 20000 (-2))) ∧
  Scenario.balances r.1 = [(1, Decimal.mk 80000 (-2)); (2, Decimal.mk 70000 (-2))].
Proof. by vm_compute. Qed.

(** [test_transfer_different_users]: 201. *)
Example test_transfer_different_users :
  (post_transfers Scenario.db (Some 1)
     (TransferCreate.mk 1 2 (Decimal.mk 500 0))).2
  = Ok (Transfer.mk 1 1 2 (Decimal.mk 50000 (-2))).
Proof. by vm_compute. Qed.

(** [test_transfer_insufficient_balance]: 400. *)
Example test_transfer_insufficient_balance :
  post_transfers Scenario.frank_db (Some 1) (TransferCreate.mk 2 1 (Decimal.mk 600 0))
  = (Scenario.frank_db, Err (InsufficientBalance (Decimal.mk 50000 (-2)))).
Proof. by vm_compute. Qed.

(** [test_transfer_to_same_account]: 400. *)
Example test_transfer_to_same_account :
  post_transfers Scenario.frank_db (Some 1) (TransferCreate.mk 1 1 (Decimal.mk 100 0))
  = (Scenario.frank_db, Err SameAccount).
Proof. by vm_compute. Qed.

(** [test_transfer_not_owner]: 403. *)
Example test_transfer_not_owner :
  post_transfers Scenario.db (Some 2) (TransferCreate.mk 1 2 (Decimal.mk 100 0))
  = (Scenario.db, Err NotOwner).
Proof. by vm_compute. Qed.

(** [test_transfer_invalid_amount]: 422. *)
Example test_transfer_invalid_amount :
  post_transfers Scenario.frank_db (Some 1) (TransferCreate.mk 1 2 (Decimal.mk 0 0))
  = (Scenario.frank_db, Err RequestValidationError).
Proof. by vm_compute. Qed.

(** [test_get_account_not_owned]: 404. *)
Example test_get_account_not_owned :
  get_account Scenario.db Scenario.bob 1 = Err AccountNotFound.
Proof. by vm_compute. Qed.

(** [test_create_user_invalid_name]: 422. *)
Example test_create_user_invalid_name :
  post_users empty_db (UserCreate.mk "") = (empty_db, Err RequestValidationError).
Proof. by vm_compute. Qed.

(** A name that is one NUL character passes the schema and is refused at
    the commit; so is a currency of four characters given to the handler. *)
Example nul_name_refused :
  let body := UserCreate.mk (String Ascii.zero EmptyString) in
  UserCreate.valid body = true ∧
  post_users Scenario.db body = (Scenario.db, Err DataError).
Proof. by vm_compute. Qed.

Example long_currency_refused :
  create_account Scenario.db Scenario.bob
    (AccountCreate.mk "savings" "EURO" (Decimal.mk 0 0))
  = (Scenario.db, Err DataError).
Proof. by vm_compute. Qed.

End Tests.

(** ** Equal decimals *)

Section EqualValues.

Implicit Types a b d : Decimal.t.

(** Two decimals that stand for one number have one coefficient once they
    are written with one exponent. *)
Lemma scaled_eq a b :
  (Decimal.value a == Decimal.value b)%Q →
  Decimal.scaled (Z.min (Decimal.exp a) (Decimal.exp b)) a
  = Decimal.scaled (Z.min (Decimal.exp a) (Decimal.exp b)) b.
Proof.
  set (e := Z.min (Decimal.exp a) (Decimal.exp b)).
  rewrite (value_scaled e a), (value_scaled e b) by lia.
  intros H. apply Qmult_inj_r in H.
  - by apply inject_Z_injective.
  - intros Hz. pose proof (pow10_Q_pos e) as Hp. rewrite Hz in Hp.
    by apply Qlt_irrefl in Hp.
Qed.

Lemma store_zero e : Numeric.store (Decimal.mk 0 e) = Some (Decimal.mk 0 (- Numeric.scale)).
Proof.
  unfold Numeric.store, Numeric.rescale, Decimal.scaled, Numeric.round_half_up.
  simpl. by destruct (_ <=? _).
Qed.

(** A balance minus an amount equal to it is zero, and is stored as zero. *)
Lemma store_sub_equal a b :
  (Decimal.value b == Decimal.value a)%Q →
  Numeric.store (Decimal.sub a b) = Some (Decimal.mk 0 (- Numeric.scale)).
Proof.
  intros H. unfold Decimal.sub, Decimal.add.
  replace (Decimal.exp (Decimal.neg b)) with (Decimal.exp b) by done.
  rewrite scaled_neg, (scaled_eq a b) by by symmetry.
  rewrite Z.add_opp_diag_r, fix_small by done.
  apply store_zero.
Qed.

(** An amount equal to a stored balance is stored as that balance. *)
Lemma store_equal a b :
  Numeric.stored a → (Decimal.value b == Decimal.value a)%Q →
  Numeric.store b = Some a.
Proof.
  intros Ha H. pose proof Ha as [Hea Hla].
  assert (Numeric.rescale b = Decimal.coef a) as Hr.
  { unfold Numeric.rescale. destruct (_ <=? _) eqn:He.
    - apply Z.leb_le in He. fold (cents b).
      rewrite (value_cents b He), (value_stored a Ha) in H.
      unfold Qeq in H. simpl in H. lia.
    - apply Z.leb_gt in He. apply scaled_eq in H.
      rewrite Hea, Z.min_l, scaled_same in H by lia.
      rewrite H. unfold Decimal.scaled. rewrite Hea.
      apply round_half_up_exact, pow10_pos. lia. }
  unfold Numeric.store. rewrite Hr.
  replace (_ <? _) with true by (symmetry; by apply Z.ltb_lt).
  destruct a as [c e]. simpl in *. by subst e.
Qed.

End EqualValues.

(** ** Whole numbers of hundredths *)

Section WholeHundredths.

Implicit Types a b d : Decimal.t.












End WholeHundredths.

(** ** Transfers of whole hundredths *)

Section WholeTransfers.

Implicit Types (db : DB) (u : User.t) (td : TransferCreate.t).





End WholeTransfers.

(** * The ledger *)

(** ** Conservation *)




(** ** Non-negativity *)

(** C2.  In every state that a sequence of requests (creations of users, of
    accounts, transfers) makes of the empty database, the balance of every
    account is at least zero. *)
Theorem balance_non_negative db id a :
  reachable db →
  accounts db !! id = Some a →
  (0 <= Decimal.value (Account.balance a))%Q.
Proof.
  intros Hdb%reachable_ledger_ok Ha.
  apply value_nonneg. by destruct (Hdb _ _ Ha).
Qed.

(** The account of Alice after she has sent all of her 1000.00 to Bob. *)
Lemma balance_non_negative_witness :
  let db := (post_transfers Scenario.db (Some 1)
               (TransferCreate.mk 1 2 (Decimal.mk 100000 (-2)))).1 in
  (0 <= Decimal.value
          (Account.balance (Account.mk 1 1 "savings" "USD" (Decimal.mk 0 (-2)))))%Q.
Proof.
  intros db. apply (balance_non_negative db 1).
  - apply reachable_post_transfers, scenario_reachable.
  - vm_compute. reflexivity.
Defined.

(** ** Rejections *)

(** C4.  A transfer request that is answered with an error, whatever the
    error, leaves the database as it was: no balance has changed and no
    transfer has been recorded. *)
Theorem rejected_transfer_preserves_state db authorization td db' e :
  post_transfers db authorization td = (db', Err e) →
  db' = db ∧
  (∀ id, accounts db' !! id = accounts db !! id) ∧
  transfers db' = transfers db.
Proof.
  intros H. assert (db' = db) as ->; [|done].
  unfold post_transfers in H.
  destruct (get_current_user db authorization); [|by inversion H].
  destruct (TransferCreate.valid td); [|by inversion H].
  by eapply create_transfer_rejected.
Qed.

(** Alice asks for 2000.00 out of her 1000.00. *)
Lemma rejected_transfer_preserves_state_witness :
  let td := TransferCreate.mk 1 2 (Decimal.mk 200000 (-2)) in
  (post_transfers Scenario.db (Some 1) td).1 = Scenario.db ∧
  (∀ id, accounts (post_transfers Scenario.db (Some 1) td).1 !! id
         = accounts Scenario.db !! id) ∧
  transfers (post_transfers Scenario.db (Some 1) td).1 = transfers Scenario.db.
Proof.
  intros td.
  apply (rejected_transfer_preserves_state Scenario.db (Some 1) td _
           (InsufficientBalance (Decimal.mk 100000 (-2)))).
  vm_compute. reflexivity.
Defined.

(** ** Looking an account up *)

(** C10.  Asked for an account that exists but belongs to another user,
    [get_account] answers as it does for a key that no account has: with
    the error 404 "Account not found". *)
Theorem get_account_hides_foreign_account db u account_id a :
  accounts db !! account_id = Some a →
  Account.user_id a ≠ User.id u →
  get_account db u account_id = Err AccountNotFound ∧
  status_code AccountNotFound = 404 ∧
  ∀ missing, accounts db !! missing = None →
    get_account db u missing = get_account db u account_id.
Proof.
  intros Ha Hne.
  assert (get_account db u account_id = Err AccountNotFound) as E.
  { unfold get_account. rewrite Ha. by rewrite bool_decide_eq_false_2. }
  split; [done|]. split; [done|].
  intros missing Hm. rewrite E. unfold get_account. by rewrite Hm.
Qed.

(** Bob asks for the account of Alice. *)
Lemma get_account_hides_foreign_account_witness :
  get_account Scenario.db Scenario.bob 1 = Err AccountNotFound ∧
  status_code AccountNotFound = 404 ∧
  ∀ missing, accounts Scenario.db !! missing = None →
    get_account Scenario.db Scenario.bob missing
    = get_account Scenario.db Scenario.bob 1.
Proof.
  apply (get_account_hides_foreign_account Scenario.db Scenario.bob 1
           (Account.mk 1 1 "savings" "USD" (Decimal.mk 100000 (-2)))).
  - vm_compute. reflexivity.
  - simpl. lia.
Defined.


(** ** Insufficient balance *)




(** ** The order of the checks *)

(** C3, as the specification states it, fails: Alice asks for a transfer
    of 0 from an account that does not exist.  The source is the first
    check of the specification and the amount the last one, so the error
    to expect is "source not found"; the service answers 422, the schema of
    the request having refused the amount before the handler has looked
    for the account. *)
Lemma validation_order_counterexample :
  let td := TransferCreate.mk 99 2 (Decimal.mk 0 0) in
  get_current_user Scenario.db (Some 1) = Ok Scenario.alice ∧
  Spec.expected_error Scenario.db Scenario.alice td = Some Spec.AccountNotFoundSource ∧
  (post_transfers Scenario.db (Some 1) td).2 = Err RequestValidationError ∧
  kind_of RequestValidationError = Some Spec.InvalidAmount.
Proof. by vm_compute. Qed.

(** C3, amended.  The checks are applied in the order: amount above zero
    (by the schema of the request), source exists, source owned by the
    requestor, destination exists, currencies match, balance covers the
    amount, source and destination differ.  The first check of that order
    that a request violates decides the answer, which is the error of that
    check and leaves the database as it was; a request that violates none is
    past validation, and committed unless the database refuses a value. *)
Theorem validation_order db authorization u td :
  get_current_user db authorization = Ok u →
  match first_violation amount_positive applied_order db u td with
  | Some c =>
      ∃ e, post_transfers db authorization td = (db, Err e) ∧
           kind_of e = Some (Spec.error_of c)
  | None =>
      (∃ db' t, post_transfers db authorization td = (db', Ok t)) ∨
      post_transfers db authorization td = (db, Err DataError)
  end.
Proof.
  intros Hu. unfold post_transfers, first_violation, applied_order. rewrite Hu.
  unfold TransferCreate.valid, amount_positive, create_transfer. simpl.
  destruct (0 <? _); simpl; [|by eexists].
  destruct (accounts db !! TransferCreate.from_account_id td) as [X|]; simpl;
    [|by eexists].
  destruct (bool_decide (Account.user_id X ≠ User.id u)); simpl; [by eexists|].
  destruct (accounts db !! TransferCreate.to_account_id td) as [Y|]; simpl;
    [|by eexists].
  destruct (bool_decide (Account.currency X ≠ Account.currency Y)); simpl;
    [by eexists|].
  destruct (Decimal.ltb _ _); simpl; [by eexists|].
  destruct (bool_decide (_ = _)); simpl; [by eexists|].
  match goal with
  | |- context [match ?c with Some _ => _ | None => _ end] => destruct c as [[accs t]|]
  end.
  - left. by eexists _, _.
  - by right.
Qed.

(** Bob asks for a transfer from the account of Alice to an account that
    does not exist: the answer is about the owner. *)
Lemma validation_order_witness :
  ∃ e, post_transfers Scenario.db (Some 2)
         (TransferCreate.mk 1 99 (Decimal.mk 10000 (-2))) = (Scenario.db, Err e) ∧
       kind_of e = Some (Spec.error_of SourceOwned).
Proof.
  apply (validation_order Scenario.db (Some 2) Scenario.bob
           (TransferCreate.mk 1 99 (Decimal.mk 10000 (-2)))).
  apply scenario_bob.
Defined.

(** ** The amount *)

(** C5, as the specification states it, fails.  An amount of 0.005 is
    above zero but is no whole number of hundredths; the request of Alice to
    send it to Bob is committed.  And the handler itself, given an amount of
    zero, commits as well: it has no check of the amount. *)
Lemma amount_revalidation_counterexample :
  let unscaled := TransferCreate.mk 1 2 (Decimal.mk 5 (-3)) in
  let zero := TransferCreate.mk 1 2 (Decimal.mk 0 (-2)) in
  Spec.amount_ok (TransferCreate.amount unscaled) = false ∧
  (¬ ∃ c : Z, (Decimal.value (TransferCreate.amount unscaled) == c # 100)%Q) ∧
  (∃ t, (post_transfers Scenario.db (Some 1) unscaled).2 = Ok t) ∧
  Spec.amount_ok (TransferCreate.amount zero) = false ∧
  (∃ t, (create_transfer Scenario.db Scenario.alice zero).2 = Ok t).
Proof.
  intros unscaled zero. split; [done|]. split.
  { intros [c Hc]. unfold Qeq in Hc. simpl in Hc. lia. }
  split; [by eexists; vm_compute|]. split; [done|].
  by eexists; vm_compute.
Qed.

(** C5, amended.  A request whose amount is not above zero is refused by
    the schema of the request, before the handler runs: it is never
    committed, the database stays as it was, and an authenticated caller is
    answered 422. *)
Theorem non_positive_amount_rejected db authorization td :
  (Decimal.value (TransferCreate.amount td) <= 0)%Q →
  (∃ e, post_transfers db authorization td = (db, Err e)) ∧
  (∀ u, get_current_user db authorization = Ok u →
        post_transfers db authorization td = (db, Err RequestValidationError)).
Proof.
  intros Hle.
  assert (TransferCreate.valid td = false) as Hv.
  { apply Z.ltb_ge. destruct (Z_lt_le_dec 0 (Decimal.coef (TransferCreate.amount td)))
      as [Hpos%value_pos|]; [|done].
    by apply Qlt_not_le in Hpos. }
  unfold post_transfers. rewrite Hv. split.
  - destruct (get_current_user db authorization); by eexists.
  - by intros u ->.
Qed.

(** Alice asks for a transfer of -1.00. *)
Lemma non_positive_amount_rejected_witness :
  let td := TransferCreate.mk 1 2 (Decimal.mk (-100) (-2)) in
  (∃ e, post_transfers Scenario.db (Some 1) td = (Scenario.db, Err e)) ∧
  (∀ u, get_current_user Scenario.db (Some 1) = Ok u →
        post_transfers Scenario.db (Some 1) td
        = (Scenario.db, Err RequestValidationError)).
Proof.
  intros td. apply (non_positive_amount_rejected Scenario.db (Some 1) td).
  by vm_compute.
Defined.

(** ** Keys *)

Section Keys.

Context {A : Type}.

Lemma next_id_above (table : gmap Z A) k :
  is_Some (table !! k) → k < next_id table.
Proof.
  unfold next_id. revert k.
  apply (map_fold_weak_ind
           (λ r (m : gmap Z A), ∀ k, is_Some (m !! k) → k < r)).
  - intros k [x Hx]. by rewrite lookup_empty in Hx.
  - intros i x m r _ IH k. rewrite lookup_insert. case_decide as Hk.
    + subst. lia.
    + intros Hs. specialize (IH k Hs). lia.
Qed.

(** The key of the next row is free. *)
Lemma next_id_fresh (table : gmap Z A) : table !! next_id table = None.
Proof.
  destruct (table !! next_id table) eqn:E; [|done].
  assert (next_id table < next_id table) by (apply next_id_above; eauto).
  lia.
Qed.

End Keys.

(** ** Currency codes *)

Section Currency.

Lemma upper_char_idempotent c : upper_char (upper_char c) = upper_char c.
Proof. destruct c as [[] [] [] [] [] [] [] []]; reflexivity. Qed.

Lemma case_variant_upper a b : case_variant a b → upper_char a = upper_char b.
Proof.
  intros [->|[<-| ->]]; [done| |]; by rewrite upper_char_idempotent.
Qed.

Lemma same_up_to_case_upper s1 s2 : same_up_to_case s1 s2 → upper s1 = upper s2.
Proof.
  revert s2. induction s1 as [|a s1 IH]; intros [|b s2]; simpl; try done.
  intros [Hab Hs]. f_equal; [by apply case_variant_upper | by apply IH].
Qed.

(** Between two accounts of one currency the answer is never "Currency
    mismatch". *)
Lemma same_currency_no_mismatch db u td X Y c1 c2 :
  accounts db !! TransferCreate.from_account_id td = Some X →
  accounts db !! TransferCreate.to_account_id td = Some Y →
  Account.currency X = Account.currency Y →
  (create_transfer db u td).2 ≠ Err (CurrencyMismatch c1 c2).
Proof.
  intros Hs Hd Hc. unfold create_transfer. rewrite Hs, Hd.
  rewrite (bool_decide_eq_false_2 (Account.currency X ≠ Account.currency Y)) by tauto.
  repeat case_match; simpl; congruence.
Qed.

(** What a created account is. *)
Lemma create_account_Ok db u body db' account :
  create_account db u body = (db', Ok account) →
  Account.id account = next_id (accounts db) ∧
  Account.currency account = upper (AccountCreate.currency body) ∧
  accounts db' = <[Account.id account := account]> (accounts db).
Proof.
  unfold create_account. case_match; [|done].
  destruct (Numeric.store _); [|done].
  by intros [= <- <-].
Qed.

End Currency.

(** C8.  The currency that [create_account] stores is the upper-case form
    of the code of the request.  So two accounts created one after the
    other with codes that differ in letter case only hold one and the same
    currency, and a transfer between them, in either direction, is never
    answered "Currency mismatch". *)
Theorem currency_normalised db u body db' account :
  create_account db u body = (db', Ok account) →
  Account.currency account = upper (AccountCreate.currency body) ∧
  accounts db' !! Account.id account = Some account ∧
  ∀ u2 body2 db'' account2,
    create_account db' u2 body2 = (db'', Ok account2) →
    same_up_to_case (AccountCreate.currency body) (AccountCreate.currency body2) →
    Account.currency account2 = Account.currency account ∧
    ∀ requestor td c1 c2,
      (TransferCreate.from_account_id td = Account.id account ∧
       TransferCreate.to_account_id td = Account.id account2) ∨
      (TransferCreate.from_account_id td = Account.id account2 ∧
       TransferCreate.to_account_id td = Account.id account) →
      (create_transfer db'' requestor td).2 ≠ Err (CurrencyMismatch c1 c2).
Proof.
  intros (Hid & Hcur & Haccs)%create_account_Ok.
  assert (accounts db' !! Account.id account = Some account) as Hl.
  { rewrite Haccs. apply lookup_insert_eq. }
  split; [done|]. split; [done|].
  intros u2 body2 db'' account2 (Hid2 & Hcur2 & Haccs2)%create_account_Ok Hcase.
  assert (Account.currency account2 = Account.currency account) as Hc.
  { rewrite Hcur, Hcur2. symmetry. by apply same_up_to_case_upper. }
  split; [done|].
  assert (Account.id account ≠ Account.id account2) as Hne.
  { intros E. pose proof (next_id_fresh (accounts db')) as Hf.
    rewrite <- Hid2, <- E, Hl in Hf. done. }
  assert (accounts db'' !! Account.id account = Some account) as H1.
  { rewrite Haccs2, lookup_insert_ne by done. done. }
  assert (accounts db'' !! Account.id account2 = Some account2) as H2.
  { rewrite Haccs2. apply lookup_insert_eq. }
  intros requestor td c1 c2 [[Hf Ht]|[Hf Ht]].
  - apply (same_currency_no_mismatch _ _ _ account account2); by rewrite ?Hf, ?Ht.
  - apply (same_currency_no_mismatch _ _ _ account2 account); by rewrite ?Hf, ?Ht.
Qed.

(** An account in "usd" for Alice, then one in "USD" for Bob. *)
Lemma currency_normalised_witness :
  let body := AccountCreate.mk "savings" "usd" (Decimal.mk 100000 (-2)) in
  let account := Account.mk 1 1 "savings" "USD" (Decimal.mk 100000 (-2)) in
  let db' := (create_account Scenario.db2 Scenario.alice body).1 in
  Account.currency account = upper (AccountCreate.currency body) ∧
  accounts db' !! Account.id account = Some account ∧
  ∀ u2 body2 db'' account2,
    create_account db' u2 body2 = (db'', Ok account2) →
    same_up_to_case (AccountCreate.currency body) (AccountCreate.currency body2) →
    Account.currency account2 = Account.currency account ∧
    ∀ requestor td c1 c2,
      (TransferCreate.from_account_id td = Account.id account ∧
       TransferCreate.to_account_id td = Account.id account2) ∨
      (TransferCreate.from_account_id td = Account.id account2 ∧
       TransferCreate.to_account_id td = Account.id account) →
      (create_transfer db'' requestor td).2 ≠ Err (CurrencyMismatch c1 c2).
Proof.
  intros body account db'.
  apply (currency_normalised Scenario.db2 Scenario.alice body db' account).
  vm_compute. reflexivity.
Defined.

Example usd_USD : same_up_to_case "usd" "USD".
Proof. repeat split; right; by left. Qed.

(** An account in "usd" and one in "USD" for Alice, then a transfer from
    the one to the other. *)
Example usd_to_USD_transfer :
  let db := (post_accounts Scenario.db2 (Some 1)
               (AccountCreate.mk "savings" "usd" (Decimal.mk 1000 0))).1 in
  let db := (post_accounts db (Some 1)
               (AccountCreate.mk "checking" "USD" (Decimal.mk 0 0))).1 in
  (post_transfers db (Some 1) (TransferCreate.mk 1 2 (Decimal.mk 100 0))).2
  = Ok (Transfer.mk 1 1 2 (Decimal.mk 10000 (-2))).
Proof. by vm_compute. Qed.

(** ** The owner of the destination *)






(** ** Concurrent transfers *)

Section Alone.

Implicit Types (db : DB) (u : User.t) (td : TransferCreate.t).



End Alone.

Section Interleaving.




End Interleaving.

Section RaceFacts.



End RaceFacts.




(** * The service around the ledger *)

(** ** Requests *)

Section Requests.

Lemma reachable_after db r : reachable db → reachable (after db r).
Proof. destruct r; simpl; by constructor. Qed.

Lemma get_current_user_Ok db authorization u :
  get_current_user db authorization = Ok u →
  ∃ n, authorization = Some n ∧ users db !! n = Some u.
Proof.
  unfold get_current_user. destruct authorization as [n|]; [|done].
  destruct (users db !! n) eqn:E; [|done]. intros [= <-]. eauto.
Qed.

End Requests.

Section Consistency.

Implicit Types (db : DB) (u : User.t).

Lemma same_account_refl a : same_account a a.
Proof. done. Qed.

Lemma same_account_with_balance a b : same_account a (Account.with_balance a b).
Proof. done. Qed.

(** The accounts after a committed transfer: the same accounts, with the
    balances of the source and of the destination replaced. *)
Lemma transferred_accounts db td X Y bX bY amt k :
  accounts db !! TransferCreate.from_account_id td = Some X →
  accounts db !! TransferCreate.to_account_id td = Some Y →
  accounts (transferred db td X Y bX bY amt) !! k =
    if decide (k = TransferCreate.to_account_id td) then Some (Account.with_balance Y bY)
    else if decide (k = TransferCreate.from_account_id td) then Some (Account.with_balance X bX)
    else accounts db !! k.
Proof.
  intros _ _. unfold transferred. simpl.
  destruct (decide (k = TransferCreate.to_account_id td)) as [->|H1].
  { by rewrite lookup_insert_eq. }
  rewrite lookup_insert_ne by done.
  destruct (decide (k = TransferCreate.from_account_id td)) as [->|H2].
  { by rewrite lookup_insert_eq. }
  by rewrite lookup_insert_ne.
Qed.

Lemma transferred_same_account db td X Y bX bY amt k a :
  accounts db !! TransferCreate.from_account_id td = Some X →
  accounts db !! TransferCreate.to_account_id td = Some Y →
  accounts db !! k = Some a →
  ∃ a', accounts (transferred db td X Y bX bY amt) !! k = Some a' ∧ same_account a a'.
Proof.
  intros HX HY Ha. rewrite transferred_accounts by done.
  repeat case_decide; simplify_eq; eauto using same_account_refl, same_account_with_balance.
Qed.

Lemma transferred_same_account_inv db td X Y bX bY amt k a' :
  accounts db !! TransferCreate.from_account_id td = Some X →
  accounts db !! TransferCreate.to_account_id td = Some Y →
  accounts (transferred db td X Y bX bY amt) !! k = Some a' →
  ∃ a, accounts db !! k = Some a ∧ same_account a a'.
Proof.
  intros HX HY. rewrite transferred_accounts by done.
  repeat case_decide; intros; simplify_eq; eauto using same_account_refl, same_account_with_balance.
Qed.

Lemma consistent_empty : consistent empty_db.
Proof. split; intros k x; simpl; by rewrite lookup_empty. Qed.

Lemma create_user_consistent db body :
  consistent db → consistent (create_user db body).1.
Proof.
  intros Hdb. unfold create_user. case_match; [|done].
  destruct Hdb as [Hu Ha Ht Ho Hl]. split; simpl; try done.
  - intros k row. rewrite lookup_insert. case_decide; [|by apply Hu].
    intros [= <-]. by simpl.
  - intros k a Hk. destruct (Ho k a Hk) as [v Hv].
    rewrite lookup_insert. case_decide; eauto.
Qed.

Lemma create_account_consistent db u body :
  is_Some (users db !! User.id u) →
  consistent db → consistent (create_account db u body).1.
Proof.
  intros Hu Hdb. unfold create_account. case_match; [|done].
  destruct (Numeric.store _) as [b|]; [|done].
  destruct Hdb as [Hus Ha Ht Ho Hl].
  pose proof (next_id_fresh (accounts db)) as Hf.
  split; simpl; try done.
  - intros k row. rewrite lookup_insert. case_decide; [|by apply Ha].
    intros [= <-]. by simpl.
  - intros k a. rewrite lookup_insert. case_decide; [|by apply Ho].
    by intros [= <-].
  - intros k t Hk. destruct (Hl k t Hk) as (Hne & X & Y & HX & HY & Hc).
    split; [done|]. exists X, Y. simpl.
    rewrite !lookup_insert_ne by congruence. done.
Qed.

Lemma create_transfer_consistent db u td :
  consistent db → consistent (create_transfer db u td).1.
Proof.
  intros Hdb.
  destruct (create_transfer db u td) as [db' [t|e]] eqn:H; simpl;
    [|by rewrite (create_transfer_rejected _ _ _ _ _ H)].
  apply create_transfer_committed in H
    as (X & Y & bX & bY & amt & Hchk & _ & _ & _ & -> & ->).
  destruct Hchk as [Hs _ Hd Hc _ Hne].
  destruct Hdb as [Hus Ha Ht Ho Hl].
  split.
  - done.
  - intros k a' (a & Hk & Hid & _)%transferred_same_account_inv; [|done..].
    rewrite Hid. by apply Ha.
  - intros k row. unfold transferred. simpl. rewrite lookup_insert.
    case_decide; [|by apply Ht]. by intros [= <-].
  - intros k a' (a & Hk & _ & Hid & _)%transferred_same_account_inv; [|done..].
    rewrite Hid. by eapply Ho.
  - assert (∀ t, linked db t → linked (transferred db td X Y bX bY amt) t) as Hmono.
    { intros t (Hne' & X0 & Y0 & HX0 & HY0 & Hc0). split; [done|].
      destruct (transferred_same_account db td X Y bX bY amt _ _ Hs Hd HX0)
        as (X1 & HX1 & _ & _ & _ & HcX).
      destruct (transferred_same_account db td X Y bX bY amt _ _ Hs Hd HY0)
        as (Y1 & HY1 & _ & _ & _ & HcY).
      exists X1, Y1. split; [done|]. split; [done|]. congruence. }
    intros k t. unfold transferred at 1. simpl. rewrite lookup_insert.
    case_decide; [|by eauto].
    intros [= <-]. apply Hmono. split; [done|]. by exists X, Y.
Qed.

Lemma reachable_consistent db : reachable db → consistent db.
Proof.
  induction 1 as [|db body _ IH|db auth body _ IH|db auth body _ IH].
  - apply consistent_empty.
  - unfold post_users. case_match; [by apply create_user_consistent | done].
  - unfold post_accounts.
    destruct (get_current_user db auth) as [u|] eqn:Hu; [|done].
    case_match; [|done]. apply create_account_consistent; [|done].
    apply get_current_user_Ok in Hu as (n & _ & Hn).
    by rewrite (users_keyed _ IH _ _ Hn), Hn.
  - unfold post_transfers. destruct (get_current_user db auth); [|done].
    case_match; [by apply create_transfer_consistent | done].
Qed.

End Consistency.

Section Conformance.

Lemma upper_length s : String.length (upper s) = String.length s.
Proof. induction s as [|c s IH]; simpl; congruence. Qed.

Lemma upper_idempotent s : upper (upper s) = upper s.
Proof.
  induction s as [|c s IH]; simpl; [done|].
  by rewrite upper_char_idempotent, IH.
Qed.

Lemma same_account_conforms a a' :
  same_account a a' → account_conforms a → account_conforms a'.
Proof. intros (_ & _ & Ht & Hc). unfold account_conforms. by rewrite Ht, Hc. Qed.

Lemma conforming_empty : conforming empty_db.
Proof. split; [|split]; intros k x; simpl; by rewrite lookup_empty. Qed.

Lemma create_user_conforming db body :
  UserCreate.valid body = true →
  conforming db → conforming (create_user db body).1.
Proof.
  intros Hv (Hu & Ha & Ht). unfold create_user. case_match; [|done].
  split; [|done].
  intros k u. simpl. rewrite lookup_insert. case_decide; [|by apply Hu].
  intros [= <-]. unfold user_conforms. simpl.
  unfold UserCreate.valid in Hv.
  apply andb_prop in Hv as [H1%Nat.leb_le H2%Nat.leb_le]. lia.
Qed.

Lemma create_account_conforming db u body :
  AccountCreate.valid body = true →
  conforming db → conforming (create_account db u body).1.
Proof.
  intros Hv (Hu & Ha & Ht). unfold create_account. case_match; [|done].
  destruct (Numeric.store _) as [b|]; [|done].
  split; [done|]. split; [|done].
  intros k a. simpl. rewrite lookup_insert. case_decide; [|by apply Ha].
  intros [= <-]. unfold account_conforms. simpl.
  unfold AccountCreate.valid in Hv.
  apply andb_prop in Hv as [Hv _]. apply andb_prop in Hv as [Hv H3%Nat.eqb_eq].
  apply andb_prop in Hv as [H1%Nat.leb_le H2%Nat.leb_le].
  rewrite upper_length, upper_idempotent. split; [lia | done].
Qed.

Lemma create_transfer_conforming db u td :
  TransferCreate.valid td = true →
  conforming db → conforming (create_transfer db u td).1.
Proof.
  intros Hv%Z.ltb_lt (Hu & Ha & Ht).
  destruct (create_transfer db u td) as [db' [t|e]] eqn:H; simpl;
    [|by rewrite (create_transfer_rejected _ _ _ _ _ H)].
  apply create_transfer_committed in H
    as (X & Y & bX & bY & amt & Hchk & _ & _ & Hamt & -> & ->).
  destruct Hchk as [Hs _ Hd _ _ _].
  split; [done|]. split.
  - intros k a' (a & Hk & Hsame)%transferred_same_account_inv; [|done..].
    eapply same_account_conforms; eauto.
  - intros k t. unfold transferred. simpl. rewrite lookup_insert.
    case_decide; [|by apply Ht]. intros [= <-]. split; simpl.
    + by eapply store_stored.
    + eapply store_nonneg; [|done]. lia.
Qed.

Lemma reachable_conforming db : reachable db → conforming db.
Proof.
  induction 1 as [|db body _ IH|db auth body _ IH|db auth body _ IH].
  - apply conforming_empty.
  - unfold post_users. case_match; [by apply create_user_conforming | done].
  - unfold post_accounts. destruct (get_current_user db auth); [|done].
    case_match; [by apply create_account_conforming | done].
  - unfold post_transfers. destruct (get_current_user db auth); [|done].
    case_match; [by apply create_transfer_conforming | done].
Qed.

End Conformance.

Section Listings.

Lemma elem_of_all {A} (table : gmap Z A) row :
  row ∈ all table ↔ ∃ k, table !! k = Some row.
Proof.
  unfold all. rewrite list_elem_of_fmap. split.
  - intros ([k x] & -> & H%elem_of_map_to_list). by exists k.
  - intros [k H]. exists (k, row). by rewrite elem_of_map_to_list.
Qed.

Lemma NoDup_all {A} (id : A → Z) (table : gmap Z A) :
  keyed id table → NoDup (all table).
Proof.
  intros Hk. unfold all. apply NoDup_fmap_2_strong; [|apply NoDup_map_to_list].
  intros [k1 x1] [k2 x2] H1%elem_of_map_to_list H2%elem_of_map_to_list.
  simpl. intros ->. f_equal.
  by rewrite <- (Hk _ _ H1), <- (Hk _ _ H2).
Qed.

Lemma list_accounts_spec db u a :
  keyed Account.id (accounts db) →
  a ∈ list_accounts db u ↔
  accounts db !! Account.id a = Some a ∧ Account.user_id a = User.id u.
Proof.
  intros Hk. unfold list_accounts. rewrite list_elem_of_filter, elem_of_all.
  split.
  - intros [Ho [k Ha]]. by rewrite (Hk _ _ Ha).
  - intros [Ha Ho]. eauto.
Qed.

Lemma account_ids_spec db u k :
  keyed Account.id (accounts db) →
  k ∈ Account.id <$> User_accounts db u ↔ owns db u k.
Proof.
  intros Hk. rewrite list_elem_of_fmap. unfold owns. split.
  - intros (a & -> & [Ha Ho]%(list_accounts_spec db u a Hk)). eauto.
  - intros (a & Ha & Ho). exists a. rewrite <- (Hk _ _ Ha) in Ha |- *.
    split; [done|]. by apply (list_accounts_spec db u a Hk).
Qed.

Lemma list_transfers_spec db u t :
  keyed Account.id (accounts db) →
  keyed Transfer.id (transfers db) →
  t ∈ list_transfers db u ↔
  transfers db !! Transfer.id t = Some t ∧
  (owns db u (Transfer.from_account_id t) ∨ owns db u (Transfer.to_account_id t)).
Proof.
  intros Ha Ht. unfold list_transfers.
  rewrite list_elem_of_filter, elem_of_all, !account_ids_spec by done.
  split.
  - intros [Ho [k Hk]]. by rewrite (Ht _ _ Hk).
  - intros [Hk Ho]. eauto.
Qed.

End Listings.

Section Steps.

Lemma post_users_Ok db body :
  UserCreate.valid body = true →
  Text.has_nul (UserCreate.name body) = false →
  post_users db body =
    (mkDB (<[next_id (users db) := User.mk (next_id (users db)) (UserCreate.name body)]>
             (users db))
          (accounts db) (transfers db),
     Ok (User.mk (next_id (users db)) (UserCreate.name body))).
Proof.
  intros Hv Hn. unfold post_users, create_user, Text.fits. by rewrite Hv, Hn.
Qed.

Lemma post_accounts_Ok db authorization body db' a :
  post_accounts db authorization body = (db', Ok a) →
  ∃ u, get_current_user db authorization = Ok u ∧
       AccountCreate.valid body = true ∧
       create_account db u body = (db', Ok a).
Proof.
  unfold post_accounts. destruct (get_current_user db authorization) as [u|]; [|done].
  destruct (AccountCreate.valid body); [|done]. eauto.
Qed.

Lemma create_account_Ok_inv db u body db' a :
  create_account db u body = (db', Ok a) →
  Numeric.store (AccountCreate.balance body) = Some (Account.balance a) ∧
  a = Account.mk (next_id (accounts db)) (User.id u)
                 (AccountCreate.account_type body)
                 (upper (AccountCreate.currency body)) (Account.balance a) ∧
  db' = mkDB (users db) (<[next_id (accounts db) := a]> (accounts db)) (transfers db).
Proof.
  unfold create_account. case_match; [|done].
  destruct (Numeric.store _) as [b|]; [|done].
  by intros [= <- <-].
Qed.

Lemma post_transfers_Ok db authorization td db' t :
  post_transfers db authorization td = (db', Ok t) →
  ∃ u, get_current_user db authorization = Ok u ∧
       TransferCreate.valid td = true ∧
       create_transfer db u td = (db', Ok t).
Proof.
  unfold post_transfers. destruct (get_current_user db authorization) as [u|]; [|done].
  destruct (TransferCreate.valid td); [|done]. eauto.
Qed.

Lemma post_transfers_Err db authorization td db' e :
  post_transfers db authorization td = (db', Err e) → db' = db.
Proof.
  unfold post_transfers. destruct (get_current_user db authorization); [|by intros [= <-]].
  destruct (TransferCreate.valid td); [|by intros [= <-]].
  apply create_transfer_rejected.
Qed.

Lemma after_users db r : users db ⊆ users (after db r).
Proof.
  destruct r as [body|auth body|auth body]; simpl.
  - unfold post_users, create_user. repeat (case_match; [|done]). simpl.
    apply insert_subseteq, next_id_fresh.
  - unfold post_accounts. destruct (get_current_user db auth); [|done].
    case_match; [|done]. unfold create_account. by repeat case_match.
  - destruct (post_transfers db auth body) as [db' [t|e]] eqn:H; simpl.
    + apply post_transfers_Ok in H as (u & _ & _ & H).
      by apply create_transfer_committed in H
        as (X & Y & bX & bY & amt & _ & _ & _ & _ & -> & _).
    + by rewrite (post_transfers_Err _ _ _ _ _ H).
Qed.

Lemma after_transfers db r : transfers db ⊆ transfers (after db r).
Proof.
  destruct r as [body|auth body|auth body]; simpl.
  - unfold post_users, create_user. by repeat case_match.
  - unfold post_accounts. destruct (get_current_user db auth); [|done].
    case_match; [|done]. unfold create_account. by repeat case_match.
  - destruct (post_transfers db auth body) as [db' [t|e]] eqn:H; simpl.
    + apply post_transfers_Ok in H as (u & _ & _ & H).
      apply create_transfer_committed in H
        as (X & Y & bX & bY & amt & _ & _ & _ & _ & -> & _).
      simpl. apply insert_subseteq, next_id_fresh.
    + by rewrite (post_transfers_Err _ _ _ _ _ H).
Qed.

Lemma after_accounts db r k a :
  accounts db !! k = Some a →
  ∃ a', accounts (after db r) !! k = Some a' ∧ same_account a a'.
Proof.
  intros Ha. destruct r as [body|auth body|auth body]; simpl.
  - exists a. split; [|done]. unfold post_users, create_user. by repeat case_match.
  - exists a. split; [|done].
    unfold post_accounts. destruct (get_current_user db auth); [|done].
    case_match; [|done]. unfold create_account. repeat (case_match; [|done]). simpl.
    rewrite lookup_insert_ne; [done|].
    intros <-. by rewrite next_id_fresh in Ha.
  - destruct (post_transfers db auth body) as [db' [t|e]] eqn:H; simpl.
    + apply post_transfers_Ok in H as (u & _ & _ & H).
      apply create_transfer_committed in H
        as (X & Y & bX & bY & amt & [Hs _ Hd _ _ _] & _ & _ & _ & -> & _).
      by apply transferred_same_account.
    + rewrite (post_transfers_Err _ _ _ _ _ H). by exists a.
Qed.

End Steps.

Section Totals.

Implicit Types (accs : gmap Z Account.t) (c : string).

Lemma total_insert_fresh c us accs ts k a :
  accs !! k = None →
  total c (mkDB us (<[k := a]> accs) ts) = holding c a + total c (mkDB us accs ts).
Proof.
  intros Hk. unfold total. simpl.
  rewrite map_fold_insert_L; [done| |done].
  intros. lia.
Qed.


End Totals.

Section Runs.

Lemma reachable_run db rs : reachable db → reachable (run db rs).
Proof.
  revert db. induction rs as [|r rs IH]; intros db Hdb; simpl; [done|].
  by apply IH, reachable_after.
Qed.

Lemma run_users db rs : users db ⊆ users (run db rs).
Proof.
  revert db. induction rs as [|r rs IH]; intros db; simpl; [done|].
  etrans; [apply (after_users db r) | apply IH].
Qed.

Lemma run_transfers db rs : transfers db ⊆ transfers (run db rs).
Proof.
  revert db. induction rs as [|r rs IH]; intros db; simpl; [done|].
  etrans; [apply (after_transfers db r) | apply IH].
Qed.

Lemma same_account_trans a b c :
  same_account a b → same_account b c → same_account a c.
Proof. unfold same_account. intuition congruence. Qed.

Lemma run_accounts db rs k a :
  accounts db !! k = Some a →
  ∃ a', accounts (run db rs) !! k = Some a' ∧ same_account a a'.
Proof.
  revert db a. induction rs as [|r rs IH]; intros db a Ha; simpl.
  { exists a. by split. }
  destruct (after_accounts db r k a Ha) as (a1 & H1 & Hs1).
  destruct (IH _ _ H1) as (a2 & H2 & Hs2).
  exists a2. split; [done|]. by eapply same_account_trans.
Qed.

End Runs.

Section Ownership.

Lemma owns_transferred db td X Y bX bY amt v k :
  accounts db !! TransferCreate.from_account_id td = Some X →
  accounts db !! TransferCreate.to_account_id td = Some Y →
  owns (transferred db td X Y bX bY amt) v k ↔ owns db v k.
Proof.
  intros HX HY. unfold owns. split.
  - intros (a' & (a & Ha & _ & Ho & _)%transferred_same_account_inv & Hv); [|done..].
    exists a. split; [done | congruence].
  - intros (a & Ha & Hv).
    destruct (transferred_same_account db td X Y bX bY amt k a HX HY Ha)
      as (a' & Ha' & _ & Ho & _).
    exists a'. split; [done | congruence].
Qed.

End Ownership.

Section Amounts.



End Amounts.

(** ** Authentication *)

(** X1.  In a state of the service, [get_current_user] answers with a user
    exactly when the header is the key of a row of [users], and the user it
    answers with is that row: its [id] is the number of the header. *)
Theorem get_current_user_identifies db authorization u :
  reachable db →
  (get_current_user db authorization = Ok u ↔
   authorization = Some (User.id u) ∧ users db !! User.id u = Some u).
Proof.
  intros Hdb%reachable_consistent. split.
  - intros (n & -> & Hn)%get_current_user_Ok.
    by rewrite (users_keyed _ Hdb _ _ Hn).
  - intros [-> Hu]. unfold get_current_user. by rewrite Hu.
Qed.

Lemma get_current_user_identifies_witness :
  get_current_user Scenario.db (Some 2) = Ok Scenario.bob ↔
  Some 2 = Some (User.id Scenario.bob) ∧
  users Scenario.db !! User.id Scenario.bob = Some Scenario.bob.
Proof.
  apply (get_current_user_identifies Scenario.db (Some 2) Scenario.bob).
  apply scenario_reachable.
Defined.

(** ** Users *)

(** X3.  A request to create a user whose name is valid and has no NUL
    character creates the user under a key that no user had, with the name of
    the request; the id of the answer, sent as the header, authenticates as
    that user ([GET /users/me] answers with it); accounts and transfers are
    untouched. *)
Theorem registered_user_authenticates db body :
  UserCreate.valid body = true →
  Text.has_nul (UserCreate.name body) = false →
  ∃ db' u,
    post_users db body = (db', Ok u) ∧
    User.name u = UserCreate.name body ∧
    users db !! User.id u = None ∧
    get_users_me db' (Some (User.id u)) = Ok u ∧
    accounts db' = accounts db ∧
    transfers db' = transfers db.
Proof.
  intros Hv Hn. rewrite (post_users_Ok _ _ Hv Hn). eexists _, _. split; [done|].
  simpl. split; [done|]. split; [apply next_id_fresh|]. split; [|done].
  unfold get_users_me, get_current_user. simpl. by rewrite lookup_insert_eq.
Qed.

Lemma registered_user_authenticates_witness :
  ∃ db' u,
    post_users Scenario.db (UserCreate.mk "Carol") = (db', Ok u) ∧
    User.name u = UserCreate.name (UserCreate.mk "Carol") ∧
    users Scenario.db !! User.id u = None ∧
    get_users_me db' (Some (User.id u)) = Ok u ∧
    accounts db' = accounts Scenario.db ∧
    transfers db' = transfers Scenario.db.
Proof.
  apply (registered_user_authenticates Scenario.db (UserCreate.mk "Carol"));
    reflexivity.
Defined.

(** X4.  A user who has just been created in a state of the service, by a
    request whose name is valid and has no NUL character, has no account and
    no transfer: both listings are empty. *)
Theorem new_user_has_nothing db body :
  reachable db →
  UserCreate.valid body = true →
  Text.has_nul (UserCreate.name body) = false →
  ∃ db' u,
    post_users db body = (db', Ok u) ∧
    get_accounts db' (Some (User.id u)) = Ok [] ∧
    get_transfers db' (Some (User.id u)) = Ok [].
Proof.
  intros Hdb%reachable_consistent Hv Hn. rewrite (post_users_Ok _ _ Hv Hn).
  eexists _, _. split; [done|]. simpl.
  set (u := User.mk (next_id (users db)) (UserCreate.name body)).
  set (db' := mkDB _ _ _).
  assert (get_current_user db' (Some (next_id (users db))) = Ok u) as Hu.
  { unfold get_current_user. simpl. by rewrite lookup_insert_eq. }
  assert (list_accounts db' u = []) as Hnil.
  { apply elem_of_nil_inv. intros a [Ho [k Ha]%elem_of_all]%list_elem_of_filter.
    simpl in Ha, Ho.
    destruct (accounts_owned _ Hdb _ _ Ha) as [v Hv'].
    by rewrite Ho, next_id_fresh in Hv'. }
  unfold get_accounts, get_transfers. rewrite Hu. split; [by rewrite Hnil|].
  f_equal. unfold list_transfers, User_accounts.
  fold (list_accounts db' u). rewrite Hnil. simpl.
  apply elem_of_nil_inv. intros t [[Ho|Ho] _]%list_elem_of_filter;
    by apply not_elem_of_nil in Ho.
Qed.

Lemma new_user_has_nothing_witness :
  ∃ db' u,
    post_users Scenario.db (UserCreate.mk "Carol") = (db', Ok u) ∧
    get_accounts db' (Some (User.id u)) = Ok [] ∧
    get_transfers db' (Some (User.id u)) = Ok [].
Proof.
  apply (new_user_has_nothing Scenario.db (UserCreate.mk "Carol")).
  - apply scenario_reachable.
  - reflexivity.
  - reflexivity.
Defined.

(** ** What requests never do *)

(** X5.  No sequence of requests removes or alters a user or a recorded
    transfer: every row of [users] and of [transfers] is found unchanged,
    under its key, in the database that the sequence leaves. *)
Theorem users_and_transfers_are_kept db rs :
  users db ⊆ users (run db rs) ∧ transfers db ⊆ transfers (run db rs).
Proof. split; [apply run_users | apply run_transfers]. Qed.

(** X6.  No sequence of requests removes an account or changes its id, its
    owner, its type or its currency: only the balance of an account ever
    changes. *)
Theorem account_identity_is_kept db rs k a :
  accounts db !! k = Some a →
  ∃ a', accounts (run db rs) !! k = Some a' ∧
        Account.id a' = Account.id a ∧
        Account.user_id a' = Account.user_id a ∧
        Account.account_type a' = Account.account_type a ∧
        Account.currency a' = Account.currency a.
Proof. apply run_accounts. Qed.

(** The account of Alice after a user is created, Bob opens an account in
    euros and Alice sends 300.00 to Bob. *)
Lemma account_identity_is_kept_witness :
  ∃ a', accounts (run Scenario.db
                    [PostUsers (UserCreate.mk "Carol");
                     PostAccounts (Some 2)
                       (AccountCreate.mk "savings" "eur" (Decimal.mk 10 0));
                     PostTransfers (Some 1)
                       (TransferCreate.mk 1 2 (Decimal.mk 30000 (-2)))]) !! 1
        = Some a' ∧
        Account.id a' = 1 ∧
        Account.user_id a' = 1 ∧
        Account.account_type a' = "savings" ∧
        Account.currency a' = "USD".
Proof.
  apply (account_identity_is_kept Scenario.db _ 1
           (Account.mk 1 1 "savings" "USD" (Decimal.mk 100000 (-2)))).
  vm_compute. reflexivity.
Defined.

(** ** Accounts *)

(** X7.  A created account is the one the request describes: it belongs to the
    user of the header, has the type of the request, its currency in upper
    case and, as balance, what the column makes of the opening balance.  It
    takes a key that no account had, leaves the other accounts, the users
    and the transfers as they were, and is what [GET /accounts/{id}] and
    [GET /accounts] then show to its owner. *)
Theorem created_account_is_readable db authorization body db' a :
  post_accounts db authorization body = (db', Ok a) →
  (∃ u, get_current_user db authorization = Ok u ∧
        Account.user_id a = User.id u) ∧
  Account.account_type a = AccountCreate.account_type body ∧
  Account.currency a = upper (AccountCreate.currency body) ∧
  Numeric.store (AccountCreate.balance body) = Some (Account.balance a) ∧
  accounts db !! Account.id a = None ∧
  (∀ k, k ≠ Account.id a → accounts db' !! k = accounts db !! k) ∧
  users db' = users db ∧ transfers db' = transfers db ∧
  get_accounts_id db' authorization (Account.id a) = Ok a ∧
  (∃ l, get_accounts db' authorization = Ok l ∧ a ∈ l).
Proof.
  intros (u & Hu & _ & (Hb & Ha & ->)%create_account_Ok_inv)%post_accounts_Ok.
  assert (Account.id a = next_id (accounts db)) as Hid by by rewrite Ha.
  assert (Account.user_id a = User.id u) as Ho by by rewrite Ha.
  split; [by exists u|]. split; [by rewrite Ha|]. split; [by rewrite Ha|].
  split; [done|]. split; [rewrite Hid; apply next_id_fresh|].
  split; [by intros k Hk; simpl; rewrite lookup_insert_ne by congruence|].
  split; [done|]. split; [done|].
  assert (get_current_user
            (mkDB (users db) (<[next_id (accounts db) := a]> (accounts db))
                  (transfers db)) authorization = Ok u) as Hu' by done.
  unfold get_accounts_id, get_accounts. rewrite Hu'. split.
  - unfold get_account. simpl. rewrite Hid, lookup_insert_eq.
    by rewrite bool_decide_eq_true_2.
  - eexists. split; [done|]. apply list_elem_of_filter. split; [done|].
    apply elem_of_all. exists (next_id (accounts db)). simpl.
    apply lookup_insert_eq.
Qed.

(** Bob opens an account of 12.345 euros: 12.35 is what it holds. *)
Lemma created_account_is_readable_witness :
  let body := AccountCreate.mk "savings" "eur" (Decimal.mk 12345 (-3)) in
  let a := Account.mk 3 2 "savings" "EUR" (Decimal.mk 1235 (-2)) in
  let db' := (post_accounts Scenario.db (Some 2) body).1 in
  (∃ u, get_current_user Scenario.db (Some 2) = Ok u ∧
        Account.user_id a = User.id u) ∧
  Account.account_type a = AccountCreate.account_type body ∧
  Account.currency a = upper (AccountCreate.currency body) ∧
  Numeric.store (AccountCreate.balance body) = Some (Account.balance a) ∧
  accounts Scenario.db !! Account.id a = None ∧
  (∀ k, k ≠ Account.id a → accounts db' !! k = accounts Scenario.db !! k) ∧
  users db' = users Scenario.db ∧ transfers db' = transfers Scenario.db ∧
  get_accounts_id db' (Some 2) (Account.id a) = Ok a ∧
  (∃ l, get_accounts db' (Some 2) = Ok l ∧ a ∈ l).
Proof.
  intros body a db'.
  apply (created_account_is_readable Scenario.db (Some 2) body db' a).
  vm_compute. reflexivity.
Defined.

Section StoreBounds.

Implicit Types d b : Decimal.t.

Lemma pow10_succ k : 0 ≤ k → 10 ^ (k + 1) = 10 * 10 ^ k.
Proof. intros. rewrite Z.pow_add_r by lia. lia. Qed.

(** Rounding to the nearest, ties away from zero, reaches [m] from half a
    unit below [m] on. *)
Lemma round_half_up_ge n h m :
  0 ≤ n → 0 < h →
  m ≤ Numeric.round_half_up n (10 * h) ↔ (10 * m - 5) * h ≤ n.
Proof.
  intros Hn Hh. unfold Numeric.round_half_up.
  rewrite (Z.abs_eq n) by done.
  pose proof (Z.div_mod n (10 * h) ltac:(lia)) as Hdm.
  pose proof (Z.mod_pos_bound n (10 * h) ltac:(lia)) as Hr.
  assert (0 ≤ n / (10 * h)) as Hq by (apply Z.div_pos; lia).
  set (q := n / (10 * h)) in *. set (r := n mod (10 * h)) in *.
  destruct (Z.eq_dec n 0) as [Hz|Hnz].
  { assert (q = 0) as -> by nia. assert (r = 0) as -> by nia.
    subst n. simpl. replace (0 <? 10 * h) with true by (symmetry; apply Z.ltb_lt; lia).
    nia. }
  rewrite Z.sgn_pos by lia.
  destruct (2 * r <? 10 * h) eqn:E; [apply Z.ltb_lt in E | apply Z.ltb_ge in E]; nia.
Qed.

(** Rounding to the nearest moves a number by half a unit at most. *)
Lemma round_half_up_near n h :
  0 < h →
  n - 5 * h ≤ Numeric.round_half_up n (10 * h) * (10 * h) ≤ n + 5 * h.
Proof.
  intros Hh. unfold Numeric.round_half_up.
  pose proof (Z.div_mod (Z.abs n) (10 * h) ltac:(lia)) as Hdm.
  pose proof (Z.mod_pos_bound (Z.abs n) (10 * h) ltac:(lia)) as Hr.
  set (q := Z.abs n / (10 * h)) in *. set (r := Z.abs n mod (10 * h)) in *.
  destruct (Z.sgn_spec n) as [[Hlt ->]|[[Heq ->]|[Hgt ->]]];
    destruct (2 * r <? 10 * h) eqn:E;
    [apply Z.ltb_lt in E | apply Z.ltb_ge in E | apply Z.ltb_lt in E
     | apply Z.ltb_ge in E | apply Z.ltb_lt in E | apply Z.ltb_ge in E]; nia.
Qed.

Lemma store_None d :
  Numeric.store d = None ↔ 10 ^ Numeric.precision ≤ Z.abs (Numeric.rescale d).
Proof.
  unfold Numeric.store. destruct (_ <? _) eqn:E.
  - apply Z.ltb_lt in E. split; [done | lia].
  - apply Z.ltb_ge in E. by split.
Qed.

(** The largest value a column takes: from 9999999999999.995 on, a
    non-negative value is refused. *)
Lemma store_None_value d :
  0 ≤ Decimal.coef d →
  Numeric.store d = None ↔
  (Decimal.value (Decimal.mk (10 ^ 16 - 5) (-3)) <= Decimal.value d)%Q.
Proof.
  intros Hd. rewrite store_None, <- ltb_ge.
  rewrite Z.abs_eq by by apply rescale_nonneg.
  unfold Decimal.ltb, Numeric.rescale. rewrite Z.ltb_ge.
  set (B := Decimal.mk (10 ^ 16 - 5) (-3)).
  destruct (- Numeric.scale <=? Decimal.exp d) eqn:E;
    [apply Z.leb_le in E | apply Z.leb_gt in E].
  - replace (Z.min (Decimal.exp d) (Decimal.exp B)) with (-3)
      by (simpl; unfold Numeric.scale in E; lia).
    assert (Decimal.scaled (-3) B = 10 ^ 16 - 5) as -> by done.
    assert (Decimal.scaled (-3) d = 10 * Decimal.scaled (- Numeric.scale) d) as ->.
    { unfold Decimal.scaled.
      replace (Decimal.exp d - -3) with (Decimal.exp d - - Numeric.scale + 1)
        by (unfold Numeric.scale; lia).
      rewrite pow10_succ by lia. lia. }
    assert (10 ^ Numeric.precision = 1000000000000000) as -> by done.
    assert (10 ^ 16 = 10000000000000000) as -> by done.
    lia.
  - replace (Z.min (Decimal.exp d) (Decimal.exp B)) with (Decimal.exp d)
      by (simpl; unfold Numeric.scale in E; lia).
    rewrite scaled_same.
    set (h := 10 ^ (-3 - Decimal.exp d)).
    assert (0 < h) as Hh by (apply pow10_pos; unfold Numeric.scale in E; lia).
    assert (Decimal.scaled (Decimal.exp d) B = (10 ^ 16 - 5) * h) as -> by done.
    replace (10 ^ (- Numeric.scale - Decimal.exp d)) with (10 * h).
    2:{ subst h.
        replace (- Numeric.scale - Decimal.exp d) with (-3 - Decimal.exp d + 1)
          by (unfold Numeric.scale; lia).
        rewrite pow10_succ; [done | unfold Numeric.scale in E; lia]. }
    rewrite round_half_up_ge by done.
    by assert (10 * 10 ^ Numeric.precision - 5 = 10 ^ 16 - 5) as -> by done.
Qed.

Lemma half_hundredth : (Decimal.value (Decimal.mk 5 (-3)) == 1 # 200)%Q.
Proof. reflexivity. Qed.

(** What a column holds is within half a hundredth of what was written. *)
Lemma store_near d b :
  Numeric.store d = Some b →
  (Decimal.value d - (1 # 200) <= Decimal.value b)%Q ∧
  (Decimal.value b <= Decimal.value d + (1 # 200))%Q.
Proof.
  unfold Numeric.store. case_match; [|done]. intros [= <-].
  unfold Numeric.rescale.
  destruct (- Numeric.scale <=? Decimal.exp d) eqn:E;
    [apply Z.leb_le in E | apply Z.leb_gt in E].
  - fold (cents d). rewrite value_hundredths, (value_cents d E). split; lra.
  - unfold Numeric.scale in E.
    set (h := 10 ^ (-3 - Decimal.exp d)).
    assert (0 < h) as Hh by (apply pow10_pos; lia).
    replace (- Numeric.scale - Decimal.exp d) with (-3 - Decimal.exp d + 1)
      by (unfold Numeric.scale; lia).
    rewrite pow10_succ by lia. fold h.
    set (c := Numeric.round_half_up (Decimal.coef d) (10 * h)).
    pose proof (round_half_up_near (Decimal.coef d) h Hh) as [Hlo Hhi]. fold c in Hlo, Hhi.
    rewrite <- half_hundredth.
    rewrite (value_scaled (Decimal.exp d) (Decimal.mk c (- Numeric.scale)))
      by (simpl; unfold Numeric.scale; lia).
    rewrite (value_scaled (Decimal.exp d) (Decimal.mk 5 (-3))) by (simpl; lia).
    rewrite (value_scaled (Decimal.exp d) d) by lia.
    unfold Decimal.scaled. simpl Decimal.coef. simpl Decimal.exp.
    rewrite Z.sub_diag.
    replace (- Numeric.scale - Decimal.exp d) with (-3 - Decimal.exp d + 1)
      by (unfold Numeric.scale; lia).
    rewrite pow10_succ by lia. fold h.
    pose proof (pow10_Q_pos (Decimal.exp d)) as HT.
    set (T := ((10 # 1) ^ Decimal.exp d)%Q) in *.
    assert (Decimal.coef d ≤ c * (10 * h) + 5 * h) as Hlo' by lia.
    rewrite Zle_Qle, inject_Z_plus, !inject_Z_mult in Hlo'.
    rewrite Zle_Qle, inject_Z_plus, !inject_Z_mult in Hhi.
    rewrite !inject_Z_mult. change (10 ^ 0) with 1.
    change (inject_Z 1) with 1%Q. change (inject_Z 5) with (5 # 1)%Q in *.
    change (inject_Z 10) with (10 # 1)%Q in *.
    split; nra.
Qed.

End StoreBounds.

(** X8.  When the columns take the type and the currency of the request (no
    NUL character, a currency of three characters at most), an opening
    balance of at most two fractional digits, not below zero and below
    10^13, is stored as it is: the account is created and its balance is the
    number of the request. *)
Theorem opening_balance_exact db u body :
  Text.fits None (AccountCreate.account_type body) = true →
  Text.fits (Some 3%nat) (upper (AccountCreate.currency body)) = true →
  two_places (AccountCreate.balance body) →
  (0 <= Decimal.value (AccountCreate.balance body))%Q →
  (Decimal.value (AccountCreate.balance body) < inject_Z (10 ^ 13))%Q →
  ∃ db' a,
    create_account db u body = (db', Ok a) ∧
    (Decimal.value (Account.balance a)
     == Decimal.value (AccountCreate.balance body))%Q.
Proof.
  intros Ht Hcur Hsc H0%value_nonneg Hlt.
  set (d := AccountCreate.balance body) in *.
  assert (Numeric.store d = Some (Decimal.mk (cents d) (- Numeric.scale))) as Hst.
  { rewrite (value_cents d Hsc) in Hlt.
    unfold Qlt in Hlt. simpl in Hlt.
    pose proof (scaled_nonneg (- Numeric.scale) d H0) as Hc. fold (cents d) in Hc.
    unfold Numeric.store, Numeric.rescale.
    replace (_ <=? _) with true by (symmetry; by apply Z.leb_le).
    fold (cents d).
    replace (_ <? _) with true; [done|].
    symmetry. apply Z.ltb_lt. unfold Numeric.precision.
    assert (10 ^ 15 = 10 ^ 13 * 100) as -> by done. lia. }
  unfold create_account. fold d. rewrite Ht, Hcur, Hst. eexists _, _. split; [done|].
  simpl. by rewrite value_hundredths, (value_cents d Hsc).
Qed.

(** An account of 1234.5. *)
Lemma opening_balance_exact_witness :
  ∃ db' a,
    create_account Scenario.db Scenario.bob
      (AccountCreate.mk "savings" "EUR" (Decimal.mk 12345 (-1))) = (db', Ok a) ∧
    (Decimal.value (Account.balance a) == Decimal.value (Decimal.mk 12345 (-1)))%Q.
Proof.
  apply (opening_balance_exact Scenario.db Scenario.bob
           (AccountCreate.mk "savings" "EUR" (Decimal.mk 12345 (-1)))).
  - reflexivity.
  - reflexivity.
  - unfold two_places. simpl. unfold Numeric.scale. lia.
  - by vm_compute.
  - by vm_compute.
Defined.

(** X9.  The bound of the column.  When the columns take the type and the
    currency of the request (no NUL character, a currency of three
    characters at most), the creation of an account whose opening balance is
    not below zero fails with the error 500 of a refused commit, the
    database staying as it was, exactly when the balance is
    9999999999999.995 or more: the value that rounds to fourteen integer
    digits. *)
Theorem opening_balance_overflow db u body :
  Text.fits None (AccountCreate.account_type body) = true →
  Text.fits (Some 3%nat) (upper (AccountCreate.currency body)) = true →
  (0 <= Decimal.value (AccountCreate.balance body))%Q →
  (create_account db u body = (db, Err DataError) ↔
   (Decimal.value (Decimal.mk (10 ^ 16 - 5) (-3))
    <= Decimal.value (AccountCreate.balance body))%Q).
Proof.
  intros Ht Hc H0%value_nonneg. rewrite <- (store_None_value _ H0).
  unfold create_account. rewrite Ht, Hc. simpl.
  destruct (Numeric.store _); split; done.
Qed.

(** An account of 10^13. *)
Lemma opening_balance_overflow_witness :
  create_account Scenario.db Scenario.bob
    (AccountCreate.mk "savings" "EUR" (Decimal.mk 1 13)) = (Scenario.db, Err DataError) ↔
  (Decimal.value (Decimal.mk (10 ^ 16 - 5) (-3)) <= Decimal.value (Decimal.mk 1 13))%Q.
Proof.
  apply (opening_balance_overflow Scenario.db Scenario.bob
           (AccountCreate.mk "savings" "EUR" (Decimal.mk 1 13))).
  - reflexivity.
  - reflexivity.
  - by vm_compute.
Defined.

(** X10.  The balance of a created account is within half a hundredth of the
    opening balance of the request. *)
Theorem opening_balance_rounded db u body db' a :
  create_account db u body = (db', Ok a) →
  (Decimal.value (AccountCreate.balance body) - (1 # 200)
   <= Decimal.value (Account.balance a))%Q ∧
  (Decimal.value (Account.balance a)
   <= Decimal.value (AccountCreate.balance body) + (1 # 200))%Q.
Proof. intros [Hb _]%create_account_Ok_inv. by apply store_near. Qed.

(** An account of 12.345: it holds 12.35. *)
Lemma opening_balance_rounded_witness :
  (Decimal.value (Decimal.mk 12345 (-3)) - (1 # 200)
   <= Decimal.value (Decimal.mk 1235 (-2)))%Q ∧
  (Decimal.value (Decimal.mk 1235 (-2))
   <= Decimal.value (Decimal.mk 12345 (-3)) + (1 # 200))%Q.
Proof.
  apply (opening_balance_rounded Scenario.db Scenario.bob
           (AccountCreate.mk "savings" "EUR" (Decimal.mk 12345 (-3)))
           (create_account Scenario.db Scenario.bob
              (AccountCreate.mk "savings" "EUR" (Decimal.mk 12345 (-3)))).1
           (Account.mk 3 2 "savings" "EUR" (Decimal.mk 1235 (-2)))).
  vm_compute. reflexivity.
Defined.


(** ** Listings *)

(** X12.  In a state of the service, [list_accounts] shows to a user exactly
    the accounts that [get_account] gives to that user: the rows of
    [accounts] that the user owns, and no account of anybody else. *)
Theorem list_accounts_agrees_with_get_account db u a :
  reachable db →
  (a ∈ list_accounts db u ↔ get_account db u (Account.id a) = Ok a).
Proof.
  intros Hdb%reachable_consistent.
  rewrite (list_accounts_spec db u a (accounts_keyed _ Hdb)).
  unfold get_account. split.
  - intros [-> Ho]. by rewrite bool_decide_eq_true_2.
  - destruct (accounts db !! Account.id a) as [a'|]; [|done].
    case_bool_decide; [|done]. by intros [= ->].
Qed.

Lemma list_accounts_agrees_with_get_account_witness :
  let a := Account.mk 2 2 "checking" "USD" (Decimal.mk 50000 (-2)) in
  a ∈ list_accounts Scenario.db Scenario.bob ↔
  get_account Scenario.db Scenario.bob (Account.id a) = Ok a.
Proof.
  intros a.
  apply (list_accounts_agrees_with_get_account Scenario.db Scenario.bob a).
  apply scenario_reachable.
Defined.

(** X13.  In a state of the service a listing shows every row once: no account
    twice in [list_accounts], and no transfer twice in [list_transfers],
    also when the user owns both the source and the destination. *)
Theorem listings_without_duplicates db u :
  reachable db →
  NoDup (list_accounts db u) ∧ NoDup (list_transfers db u).
Proof.
  intros Hdb%reachable_consistent. split.
  - apply NoDup_filter, (NoDup_all Account.id), (accounts_keyed _ Hdb).
  - apply NoDup_filter, (NoDup_all Transfer.id), (transfers_keyed _ Hdb).
Qed.

(** Frank after a transfer between his two accounts. *)
Lemma listings_without_duplicates_witness :
  let db := (post_transfers Scenario.frank_db (Some 1)
               (TransferCreate.mk 1 2 (Decimal.mk 20000 (-2)))).1 in
  NoDup (list_accounts db (User.mk 1 "Frank")) ∧
  NoDup (list_transfers db (User.mk 1 "Frank")).
Proof.
  intros db. apply (listings_without_duplicates db (User.mk 1 "Frank")).
  apply reachable_post_transfers. repeat constructor.
Defined.

(** X14.  In a state of the service, [list_transfers] shows to a user exactly
    the recorded transfers whose source or whose destination is an account
    of that user: the transfers sent and the transfers received, and no
    transfer between accounts of other users. *)
Theorem list_transfers_shows_own_transfers db u t :
  reachable db →
  (t ∈ list_transfers db u ↔
   transfers db !! Transfer.id t = Some t ∧
   (owns db u (Transfer.from_account_id t) ∨ owns db u (Transfer.to_account_id t))).
Proof.
  intros Hdb%reachable_consistent.
  apply list_transfers_spec; [apply (accounts_keyed _ Hdb) | apply (transfers_keyed _ Hdb)].
Qed.

(** Bob and the 200.00 that Alice has sent him. *)
Lemma list_transfers_shows_own_transfers_witness :
  let db := (post_transfers Scenario.db (Some 1)
               (TransferCreate.mk 1 2 (Decimal.mk 20000 (-2)))).1 in
  let t := Transfer.mk 1 1 2 (Decimal.mk 20000 (-2)) in
  t ∈ list_transfers db Scenario.bob ↔
  transfers db !! Transfer.id t = Some t ∧
  (owns db Scenario.bob (Transfer.from_account_id t)
   ∨ owns db Scenario.bob (Transfer.to_account_id t)).
Proof.
  intros db t. apply (list_transfers_shows_own_transfers db Scenario.bob t).
  apply reachable_post_transfers, scenario_reachable.
Defined.

(** X15.  A transfer committed in a state of the service is recorded under a
    key that no transfer had, with the accounts of the request, and from
    then on [list_transfers] shows it to the owner of the source and to the
    owner of the destination, and to nobody else. *)
Theorem committed_transfer_is_listed db authorization td db' t :
  reachable db →
  post_transfers db authorization td = (db', Ok t) →
  Transfer.from_account_id t = TransferCreate.from_account_id td ∧
  Transfer.to_account_id t = TransferCreate.to_account_id td ∧
  transfers db !! Transfer.id t = None ∧
  transfers db' !! Transfer.id t = Some t ∧
  ∀ v, t ∈ list_transfers db' v ↔
       owns db v (TransferCreate.from_account_id td)
       ∨ owns db v (TransferCreate.to_account_id td).
Proof.
  intros Hdb H.
  assert (consistent db') as Hdb'.
  { apply reachable_consistent.
    replace db' with (post_transfers db authorization td).1 by by rewrite H.
    by constructor. }
  apply post_transfers_Ok in H as (u & _ & _ & H).
  apply create_transfer_committed in H
    as (X & Y & bX & bY & amt & [Hs _ Hd _ _ _] & _ & _ & _ & -> & ->).
  simpl. split; [done|]. split; [done|]. split; [apply next_id_fresh|].
  split; [apply lookup_insert_eq|].
  intros v.
  rewrite (list_transfers_spec _ v _ (accounts_keyed _ Hdb') (transfers_keyed _ Hdb')).
  simpl. rewrite lookup_insert_eq, !owns_transferred by done. tauto.
Qed.

(** Alice sends 200.00 to Bob. *)
Lemma committed_transfer_is_listed_witness :
  let td := TransferCreate.mk 1 2 (Decimal.mk 20000 (-2)) in
  let t := Transfer.mk 1 1 2 (Decimal.mk 20000 (-2)) in
  let db' := (post_transfers Scenario.db (Some 1) td).1 in
  Transfer.from_account_id t = TransferCreate.from_account_id td ∧
  Transfer.to_account_id t = TransferCreate.to_account_id td ∧
  transfers Scenario.db !! Transfer.id t = None ∧
  transfers db' !! Transfer.id t = Some t ∧
  ∀ v, t ∈ list_transfers db' v ↔
       owns Scenario.db v (TransferCreate.from_account_id td)
       ∨ owns Scenario.db v (TransferCreate.to_account_id td).
Proof.
  intros td t db'.
  apply (committed_transfer_is_listed Scenario.db (Some 1) td db' t).
  - apply scenario_reachable.
  - vm_compute. reflexivity.
Defined.

(** ** The rows of a state of the service *)

(** X16.  Every recorded transfer is found under its own id, is between two
    distinct accounts that exist and hold one currency, and has an amount as
    the column holds it, not below zero. *)
Theorem recorded_transfers_are_linked db k t :
  reachable db →
  transfers db !! k = Some t →
  Transfer.id t = k ∧
  Transfer.from_account_id t ≠ Transfer.to_account_id t ∧
  (∃ X Y, accounts db !! Transfer.from_account_id t = Some X ∧
          accounts db !! Transfer.to_account_id t = Some Y ∧
          Account.currency X = Account.currency Y) ∧
  Numeric.stored (Transfer.amount t) ∧
  (0 <= Decimal.value (Transfer.amount t))%Q.
Proof.
  intros Hdb Ht.
  pose proof (reachable_consistent _ Hdb) as Hc.
  pose proof (reachable_conforming _ Hdb) as (_ & _ & Hf).
  split; [by apply (transfers_keyed _ Hc)|].
  destruct (transfers_linked _ Hc _ _ Ht) as [Hne Hex].
  destruct (Hf _ _ Ht) as [Hst H0].
  split; [done|]. split; [done|]. split; [done|]. by apply value_nonneg.
Qed.

Lemma recorded_transfers_are_linked_witness :
  let db := (post_transfers Scenario.db (Some 1)
               (TransferCreate.mk 1 2 (Decimal.mk 20000 (-2)))).1 in
  let t := Transfer.mk 1 1 2 (Decimal.mk 20000 (-2)) in
  Transfer.id t = 1 ∧
  Transfer.from_account_id t ≠ Transfer.to_account_id t ∧
  (∃ X Y, accounts db !! Transfer.from_account_id t = Some X ∧
          accounts db !! Transfer.to_account_id t = Some Y ∧
          Account.currency X = Account.currency Y) ∧
  Numeric.stored (Transfer.amount t) ∧
  (0 <= Decimal.value (Transfer.amount t))%Q.
Proof.
  intros db t. apply (recorded_transfers_are_linked db 1 t).
  - apply reachable_post_transfers, scenario_reachable.
  - vm_compute. reflexivity.
Defined.

(** The amount of a recorded transfer can be zero: 0.001 is above zero, so
    the schema lets it through, and the column rounds it to 0.00. *)
Example zero_amount_transfer_recorded :
  (post_transfers Scenario.db (Some 1)
     (TransferCreate.mk 1 2 (Decimal.mk 1 (-3)))).2
  = Ok (Transfer.mk 1 1 2 (Decimal.mk 0 (-2))).
Proof. by vm_compute. Qed.

(** X17.  Every user and every account of a state of the service is found
    under its own id and is as its schema and its columns ask: the name of
    a user has 1 to 100 characters; an account belongs to a user that
    exists, its type has 1 to 50 characters, and its currency is 3
    characters with no lower-case letter among them. *)
Theorem stored_rows_conform db :
  reachable db →
  (∀ k u, users db !! k = Some u →
     User.id u = k ∧ (1 ≤ String.length (User.name u) ≤ 100)%nat) ∧
  (∀ k a, accounts db !! k = Some a →
     Account.id a = k ∧
     is_Some (users db !! Account.user_id a) ∧
     (1 ≤ String.length (Account.account_type a) ≤ 50)%nat ∧
     String.length (Account.currency a) = 3%nat ∧
     upper (Account.currency a) = Account.currency a).
Proof.
  intros Hdb.
  pose proof (reachable_consistent _ Hdb) as Hc.
  pose proof (reachable_conforming _ Hdb) as (Hu & Ha & _).
  split.
  - intros k u Hk. split; [by apply (users_keyed _ Hc) | by apply (Hu k)].
  - intros k a Hk. split; [by apply (accounts_keyed _ Hc)|].
    split; [by apply (accounts_owned _ Hc k)|]. by apply (Ha k).
Qed.

Lemma stored_rows_conform_witness :
  (∀ k u, users Scenario.db !! k = Some u →
     User.id u = k ∧ (1 ≤ String.length (User.name u) ≤ 100)%nat) ∧
  (∀ k a, accounts Scenario.db !! k = Some a →
     Account.id a = k ∧
     is_Some (users Scenario.db !! Account.user_id a) ∧
     (1 ≤ String.length (Account.account_type a) ≤ 50)%nat ∧
     String.length (Account.currency a) = 3%nat ∧
     upper (Account.currency a) = Account.currency a).
Proof. apply (stored_rows_conform Scenario.db), scenario_reachable. Defined.

Section TwoPlaces.

Implicit Types d : Decimal.t.

(** A value of at most two fractional digits that fits the column is
    stored as it is. *)
Lemma store_two_places d :
  two_places d → Z.abs (cents d) < 10 ^ Numeric.precision →
  Numeric.store d = Some (Decimal.mk (cents d) (- Numeric.scale)).
Proof.
  intros Hsc Hlt. unfold Numeric.store, Numeric.rescale.
  replace (_ <=? _) with true by (symmetry; by apply Z.leb_le).
  fold (cents d). by replace (_ <? _) with true by (symmetry; by apply Z.ltb_lt).
Qed.

Lemma store_hundredths c :
  Numeric.store (Decimal.mk c (- Numeric.scale)) =
    if Z.abs c <? 10 ^ Numeric.precision
    then Some (Decimal.mk c (- Numeric.scale)) else None.
Proof.
  unfold Numeric.store, Numeric.rescale, Decimal.scaled. simpl.
  by replace (c * 10 ^ _) with c by (rewrite Z.sub_diag; simpl; lia).
Qed.

End TwoPlaces.

(** ** Transfers *)

(** X18.  A committed transfer writes two balances and one row of [transfers],
    and nothing else: the users are as they were, no account is created or
    removed, every account other than the source and the destination is
    unchanged, the source and the destination keep their id, owner, type and
    currency, and the transfers are the old ones and the new one, under a
    key that was free. *)
Theorem transfer_touches_two_accounts db u td db' t :
  create_transfer db u td = (db', Ok t) →
  users db' = users db ∧
  (∀ k, k ≠ TransferCreate.from_account_id td →
        k ≠ TransferCreate.to_account_id td →
        accounts db' !! k = accounts db !! k) ∧
  (∀ k, is_Some (accounts db' !! k) ↔ is_Some (accounts db !! k)) ∧
  (∀ k a a', accounts db !! k = Some a → accounts db' !! k = Some a' →
     Account.id a' = Account.id a ∧
     Account.user_id a' = Account.user_id a ∧
     Account.account_type a' = Account.account_type a ∧
     Account.currency a' = Account.currency a) ∧
  transfers db !! Transfer.id t = None ∧
  transfers db' = <[Transfer.id t := t]> (transfers db).
Proof.
  intros (X & Y & bX & bY & amt & [Hs _ Hd _ _ _] & _ & _ & _ & -> & ->)
    %create_transfer_committed.
  split; [done|]. split.
  { intros k H1 H2. rewrite transferred_accounts by done.
    by rewrite !decide_False. }
  split.
  { intros k. split.
    - intros [a' (a & Ha & _)%transferred_same_account_inv]; eauto.
    - intros [a Ha].
      destruct (transferred_same_account db td X Y bX bY amt k a Hs Hd Ha)
        as (a' & Ha' & _). eauto. }
  split.
  { intros k a a' Ha (a0 & Ha0 & Hsame)%transferred_same_account_inv; [|done..].
    by simplify_eq. }
  split; [apply next_id_fresh | done].
Qed.

(** Alice sends 200.00 to Bob. *)
Lemma transfer_touches_two_accounts_witness :
  let td := TransferCreate.mk 1 2 (Decimal.mk 20000 (-2)) in
  let t := Transfer.mk 1 1 2 (Decimal.mk 20000 (-2)) in
  let db' := (create_transfer Scenario.db Scenario.alice td).1 in
  users db' = users Scenario.db ∧
  (∀ k, k ≠ TransferCreate.from_account_id td →
        k ≠ TransferCreate.to_account_id td →
        accounts db' !! k = accounts Scenario.db !! k) ∧
  (∀ k, is_Some (accounts db' !! k) ↔ is_Some (accounts Scenario.db !! k)) ∧
  (∀ k a a', accounts Scenario.db !! k = Some a → accounts db' !! k = Some a' →
     Account.id a' = Account.id a ∧
     Account.user_id a' = Account.user_id a ∧
     Account.account_type a' = Account.account_type a ∧
     Account.currency a' = Account.currency a) ∧
  transfers Scenario.db !! Transfer.id t = None ∧
  transfers db' = <[Transfer.id t := t]> (transfers Scenario.db).
Proof.
  intros td t db'.
  apply (transfer_touches_two_accounts Scenario.db Scenario.alice td db' t).
  vm_compute. reflexivity.
Defined.

(** ** The money of a currency *)

Section TotalFacts.


End TotalFacts.



(** Without the hypothesis on the digits money appears: after the transfer
    of 0.005 from Alice to Bob the dollars are 1500.01. *)
Example unscaled_transfer_changes_total :
  total "USD" Scenario.db = 150000 ∧
  total "USD" (post_transfers Scenario.db (Some 1)
                 (TransferCreate.mk 1 2 (Decimal.mk 5 (-3)))).1 = 150001.
Proof. by vm_compute. Qed.

(** X20.  The creation of an account adds its balance to the money of its
    currency and leaves the money of the other currencies as it was. *)
Theorem account_creation_adds_its_balance db u body db' a :
  create_account db u body = (db', Ok a) →
  total (Account.currency a) db'
  = total (Account.currency a) db + cents (Account.balance a) ∧
  ∀ c, c ≠ Account.currency a → total c db' = total c db.
Proof.
  intros (_ & _ & ->)%create_account_Ok_inv.
  split; [|intros c Hc];
    rewrite total_insert_fresh by apply next_id_fresh; unfold holding;
    change (total ?c (mkDB (users db) (accounts db) _)) with (total c db).
  - rewrite bool_decide_eq_true_2 by done. lia.
  - rewrite bool_decide_eq_false_2 by done. lia.
Qed.

(** Bob opens an account of 10.00 euros. *)
Lemma account_creation_adds_its_balance_witness :
  let body := AccountCreate.mk "savings" "eur" (Decimal.mk 10 0) in
  let a := Account.mk 3 2 "savings" "EUR" (Decimal.mk 1000 (-2)) in
  let db' := (create_account Scenario.db Scenario.bob body).1 in
  total (Account.currency a) db'
  = total (Account.currency a) Scenario.db + cents (Account.balance a) ∧
  ∀ c, c ≠ Account.currency a → total c db' = total c Scenario.db.
Proof.
  intros body a db'.
  apply (account_creation_adds_its_balance Scenario.db Scenario.bob body db' a).
  vm_compute. reflexivity.
Defined.

(** X21.  The bound of the column, for a transfer.  A request that passes the
    six checks of the handler in a state of the service, with an amount of
    at most two fractional digits that is not below zero, fails in one case
    only: when the new balance of the destination is 10^13 or more, the
    commit is refused (error 500) and the database stays as it was. *)
Theorem transfer_overflow_refused db u td X Y :
  reachable db →
  checked db u td X Y →
  two_places (TransferCreate.amount td) →
  (0 <= Decimal.value (TransferCreate.amount td))%Q →
  (create_transfer db u td = (db, Err DataError) ↔
   (inject_Z (10 ^ 13) <=
    Decimal.value (Account.balance Y) + Decimal.value (TransferCreate.amount td))%Q) ∧
  ((∃ db' t, create_transfer db u td = (db', Ok t)) ∨
   create_transfer db u td = (db, Err DataError)).
Proof.
  intros Hdb%reachable_ledger_ok Hchk Hsc H0%value_nonneg.
  rewrite (create_transfer_checked _ _ _ _ _ Hchk).
  destruct Hchk as [Hs _ Hd _ Hlt _].
  destruct (Hdb _ _ Hs) as [HXs HX0], (Hdb _ _ Hd) as [HYs HY0].
  set (A := TransferCreate.amount td) in *.
  assert (0 ≤ cents A ≤ Decimal.coef (Account.balance X)) as HA.
  { split; [by apply scaled_nonneg|].
    unfold Decimal.ltb in Hlt. apply Z.ltb_ge in Hlt.
    pose proof HXs as [HXe _]. rewrite HXe, (min_scale A Hsc) in Hlt.
    fold (cents A) (cents (Account.balance X)) in Hlt.
    by rewrite (cents_stored _ HXs) in Hlt. }
  assert (Z.abs (Decimal.coef (Account.balance X)) < 10 ^ Numeric.precision)
    as HXl by apply HXs.
  rewrite (sub_exact _ A HXs Hsc HA), (add_exact _ A HYs Hsc) by lia.
  rewrite (store_two_places A Hsc) by lia.
  rewrite !store_hundredths.
  replace (Z.abs (Decimal.coef (Account.balance X) - cents A) <? _) with true
    by (symmetry; apply Z.ltb_lt; lia).
  rewrite (value_stored _ HYs), (value_cents A Hsc).
  assert ((inject_Z (10 ^ 13) <= (Decimal.coef (Account.balance Y) # 100) + (cents A # 100))%Q
          ↔ 10 ^ Numeric.precision ≤ Decimal.coef (Account.balance Y) + cents A) as ->.
  { rewrite <- Qmake_plus_100. unfold Qle. simpl.
    assert (10 ^ Numeric.precision = 10 ^ 13 * 100) as -> by done. lia. }
  destruct (Z.abs (_ + _) <? _) eqn:E;
    [apply Z.ltb_lt in E | apply Z.ltb_ge in E].
  - split; [|left; by eexists _, _]. split; [done | lia].
  - split; [|by right]. split; [lia | done].
Qed.

(** Bob holds 99999999999999.99 dollars and Alice sends him 0.01. *)
Lemma transfer_overflow_refused_witness :
  let db := (post_accounts Scenario.db3 (Some 2)
               (AccountCreate.mk "checking" "USD" (Decimal.mk (10 ^ 15 - 1) (-2)))).1 in
  let td := TransferCreate.mk 1 2 (Decimal.mk 1 (-2)) in
  let Y := Account.mk 2 2 "checking" "USD" (Decimal.mk (10 ^ 15 - 1) (-2)) in
  (create_transfer db Scenario.alice td = (db, Err DataError) ↔
   (inject_Z (10 ^ 13) <=
    Decimal.value (Account.balance Y) + Decimal.value (TransferCreate.amount td))%Q) ∧
  ((∃ db' t, create_transfer db Scenario.alice td = (db', Ok t)) ∨
   create_transfer db Scenario.alice td = (db, Err DataError)).
Proof.
  intros db td Y.
  apply (transfer_overflow_refused db Scenario.alice td
           (Account.mk 1 1 "savings" "USD" (Decimal.mk 100000 (-2))) Y).
  - apply reachable_post_accounts. repeat constructor.
  - split; by vm_compute.
  - unfold two_places. simpl. unfold Numeric.scale. lia.
  - by vm_compute.
Defined.

(** X22.  The amount that a committed transfer records, and that its answer
    reports, is within half a hundredth of the amount of the request, and is
    the amount of the request when that has at most two fractional
    digits. *)
Theorem recorded_amount_is_the_request db u td db' t :
  create_transfer db u td = (db', Ok t) →
  transfers db' !! Transfer.id t = Some t ∧
  (Decimal.value (TransferCreate.amount td) - (1 # 200)
   <= Decimal.value (Transfer.amount t))%Q ∧
  (Decimal.value (Transfer.amount t)
   <= Decimal.value (TransferCreate.amount td) + (1 # 200))%Q ∧
  (two_places (TransferCreate.amount td) →
   (Decimal.value (Transfer.amount t) == Decimal.value (TransferCreate.amount td))%Q).
Proof.
  intros (X & Y & bX & bY & amt & _ & _ & _ & Hamt & -> & ->)
    %create_transfer_committed.
  simpl. split; [apply lookup_insert_eq|].
  destruct (store_near _ _ Hamt) as [Hlo Hhi].
  split; [done|]. split; [done|].
  intros Hsc. pose proof (store_stored _ _ Hamt) as [He Hl].
  unfold Numeric.store, Numeric.rescale in Hamt.
  replace (_ <=? _) with true in Hamt by (symmetry; by apply Z.leb_le).
  fold (cents (TransferCreate.amount td)) in Hamt.
  destruct (_ <? _); [|done]. injection Hamt as <-.
  by rewrite value_hundredths, (value_cents _ Hsc).
Qed.

(** Alice sends 12.5 to Bob: the transfer says 12.50. *)
Lemma recorded_amount_is_the_request_witness :
  let td := TransferCreate.mk 1 2 (Decimal.mk 125 (-1)) in
  let t := Transfer.mk 1 1 2 (Decimal.mk 1250 (-2)) in
  let db' := (create_transfer Scenario.db Scenario.alice td).1 in
  transfers db' !! Transfer.id t = Some t ∧
  (Decimal.value (TransferCreate.amount td) - (1 # 200)
   <= Decimal.value (Transfer.amount t))%Q ∧
  (Decimal.value (Transfer.amount t)
   <= Decimal.value (TransferCreate.amount td) + (1 # 200))%Q ∧
  (two_places (TransferCreate.amount td) →
   (Decimal.value (Transfer.amount t) == Decimal.value (TransferCreate.amount td))%Q).
Proof.
  intros td t db'.
  apply (recorded_amount_is_the_request Scenario.db Scenario.alice td db' t).
  vm_compute. reflexivity.
Defined.
